(** * The invoker agent's log forwarder

    A shallow embedding of the log-forwarding handler of the OpenWhisk
    invoker agent ([LogForwardHandler]: [ForwardLogsFromUserAction],
    [parseLogForwardInfo], [logScan], [logWriter],
    [writeSyntheticLogLine], [reportLoggingError]) together with the
    parts of the Go standard library whose behaviour the handler's
    results depend on: [strings.Contains], [os.File] positions,
    [bufio.Scanner] with its read-ahead buffer, and the nil-pointer
    check of [json.Unmarshal].

    Go strings are byte sequences; they are modelled as [string].
    [int] and [int64] values are modelled in [Z], lengths and buffer
    indices in [nat].  A channel send is modelled as appending to the
    list of lines sent so far, a panic as an outcome of its own.  The
    clock is read through parameters.  What the handler prints on
    standard output and standard error, and the deferred [Close] of
    the log file, leave no trace in the results and are left out.

    The packages [strings], [fmt], [os], [bufio] and [encoding/json]
    are modelled after Go's standard library; the rest is package
    [main] of the agent. *)

From Stdlib Require Import ZArith List String Ascii Bool Lia.
From Stdlib Require Import DecimalString DecimalPos DecimalZ.
Import ListNotations.
Local Open Scope string_scope.

(** ** Byte strings *)

(** [s[:n]] for [n <= len(s)]. *)
Fixpoint take (n : nat) (s : string) : string :=
  match n, s with
  | S n', String c s' => String c (take n' s')
  | _, _ => EmptyString
  end.

(** [s[n:]] for [n <= len(s)]. *)
Fixpoint drop (n : nat) (s : string) : string :=
  match n, s with
  | S n', String _ s' => drop n' s'
  | _, _ => s
  end.

(** The last byte of a string, if any. *)
Fixpoint last_byte (s : string) : option ascii :=
  match s with
  | EmptyString => None
  | String c EmptyString => Some c
  | String _ s' => last_byte s'
  end.

(** [bytes.IndexByte]. *)
Fixpoint IndexByte (c : ascii) (s : string) : option nat :=
  match s with
  | EmptyString => None
  | String d s' =>
      if Ascii.eqb d c then Some 0%nat
      else option_map S (IndexByte c s')
  end.

Definition dquote : ascii := "034"%char.

(** String literals of the source that contain double quotes are
    written here with an apostrophe in place of each double quote;
    [js] puts the double quotes back. *)
Fixpoint js (s : string) : string :=
  match s with
  | EmptyString => EmptyString
  | String c s' =>
      String (if Ascii.eqb c "'"%char then dquote else c) (js s')
  end.

Definition newline : ascii := "010"%char.
Definition creturn : ascii := "013"%char.
Definition nl : string := String newline EmptyString.

(** Machine integers: Go's [int] and [int64] on the 64-bit targets
    the agent is built for. *)
Definition wrap64 (z : Z) : Z :=
  (z + 2 ^ 63) mod 2 ^ 64 - 2 ^ 63.

(** Abnormal termination of a goroutine. *)
Inductive outcome (A : Type) : Type :=
| Ret (a : A)
| Panic (msg : string).
Arguments Ret {A} a.
Arguments Panic {A} msg.

(** ** package strings *)
Module strings.

(** [strings.Contains(s, substr)]. *)
Fixpoint Contains (s substr : string) : bool :=
  if String.prefix substr s then true
  else match s with
       | EmptyString => false
       | String _ s' => Contains s' substr
       end.

End strings.

(** ** package fmt *)
Module fmt.

(** The verb [%d] applied to an integer. *)
Definition d (z : Z) : string := NilZero.string_of_int (Z.to_int z).

End fmt.

(** ** package os: regular files opened for reading *)
Module os.

Inductive openResult :=
| Opened (contents : string)
| OpenFailed (reason : string).

(** The files that can be opened, by path. *)
Definition FileSystem := string -> openResult.

(** An open file: its contents and the descriptor's offset. *)
Record File := mkFile { data : string; pos : Z }.

Definition Open (fs : FileSystem) (name : string) : option File * option string :=
  match fs name with
  | Opened c => (Some (mkFile c 0), None)
  | OpenFailed reason => (None, Some ("open " ++ name ++ ": " ++ reason))
  end.

Definition size (f : File) : Z := Z.of_nat (String.length (data f)).

(** The bytes between the descriptor's offset and the end of the file. *)
Definition unread (f : File) : string :=
  drop (Z.to_nat (pos f)) (data f).

(** [f.Seek(offset, whence)]; a regular file accepts every
    non-negative target, also past its end. *)
Definition Seek (f : File) (offset : Z) (whence : Z) : File * Z * option string :=
  let base :=
    if (whence =? 0)%Z then 0%Z
    else if (whence =? 1)%Z then pos f
    else size f in
  let target := (base + offset)%Z in
  if (target <? 0)%Z then (f, 0%Z, Some "seek: invalid argument")
  else (mkFile (data f) target, target, None).

(** [f.Read(b)] with [n = len(b)]: the bytes read, whether the
    result is [io.EOF], and the file afterwards. *)
Definition Read (f : File) (n : nat) : string * bool * File :=
  match n with
  | O => (EmptyString, false, f)
  | _ =>
      match unread f with
      | EmptyString => (EmptyString, true, f)
      | rest =>
          let chunk := take n rest in
          (chunk, false,
           mkFile (data f) (pos f + Z.of_nat (String.length chunk)))
      end
  end.

End os.

(** ** package bufio: Scanner with the ScanLines split function *)
Module bufio.

Definition MaxScanTokenSize : nat := 64 * 1024.
Definition startBufSize : nat := 4096.

Inductive error := EOF | ErrTooLong | ErrAdvanceTooFar | ErrNoProgress.

(** The scanner's fields.  Of the buffer [buf] the model keeps its
    length [buflen] and the bytes [buf[start:end]] not yet handed
    out, [pending]. *)
Record Scanner := mkScanner {
  buflen : nat;
  start : nat;
  end_ : nat;
  pending : string;
  token : string;
  err : option error
}.

Definition NewScanner : Scanner :=
  mkScanner 0 0 0 EmptyString EmptyString None.

Definition dropCR (data : string) : string :=
  match last_byte data with
  | Some c =>
      if Ascii.eqb c creturn then take (String.length data - 1) data
      else data
  | None => data
  end.

(** [ScanLines(data, atEOF)]: the advance and the token ([None] is
    the nil token); its error result is always nil. *)
Definition ScanLines (data : string) (atEOF : bool) : nat * option string :=
  if atEOF && (String.length data =? 0)%nat then (0%nat, None)
  else
    match IndexByte newline data with
    | Some i => (S i, Some (dropCR (take i data)))
    | None =>
        if atEOF then (String.length data, Some (dropCR data))
        else (0%nat, None)
    end.

Definition setErr (s : Scanner) (e : error) : Scanner :=
  match err s with
  | None | Some EOF =>
      mkScanner (buflen s) (start s) (end_ s) (pending s) (token s) (Some e)
  | Some _ => s
  end.

Definition isSome {A} (o : option A) : bool :=
  match o with Some _ => true | None => false end.

(** The first half of the body of the [for] loop of [Scan]: see if
    we can get a token with what we already have.  [inl] is a
    return from [Scan], [inr] goes on to read. *)
Definition tryToken (s : Scanner) : (bool * Scanner) + Scanner :=
  if (start s <? end_ s)%nat || isSome (err s) then
    let '(adv, tok) := ScanLines (pending s) (isSome (err s)) in
    (* s.advance(adv) *)
    if (end_ s - start s <? adv)%nat then
      inl (false, setErr s ErrAdvanceTooFar)
    else
      let s1 := mkScanner (buflen s) (start s + adv) (end_ s)
                  (drop adv (pending s)) (token s) (err s) in
      match tok with
      | Some t =>
          inl (true, mkScanner (buflen s1) (start s1) (end_ s1)
                       (pending s1) t (err s1))
      | None =>
          inr (mkScanner (buflen s1) (start s1) (end_ s1)
                 (pending s1) EmptyString (err s1))
      end
  else inr s.

(** The second half: we cannot generate a token with what we are
    holding, and must read more data.  First, shift data to the
    beginning of the buffer if there's lots of empty space or space
    is needed. *)
Definition shiftBuffer (s : Scanner) : Scanner :=
  if (0 <? start s)%nat
     && ((end_ s =? buflen s)%nat || (buflen s / 2 <? start s)%nat)
  then mkScanner (buflen s) 0 (end_ s - start s)
         (pending s) (token s) (err s)
  else s.

(** Is the buffer full? If so, resize; [inl] when the token is too
    long for the largest buffer. *)
Definition growBuffer (s : Scanner) : Scanner + Scanner :=
  if (end_ s =? buflen s)%nat then
    if (MaxScanTokenSize <=? buflen s)%nat then
      inl (setErr s ErrTooLong)
    else
      let newSize := (buflen s * 2)%nat in
      let newSize :=
        if (newSize =? 0)%nat then startBufSize else newSize in
      let newSize :=
        if (MaxScanTokenSize <? newSize)%nat
        then MaxScanTokenSize else newSize in
      inr (mkScanner newSize 0 (end_ s - start s)
             (pending s) (token s) (err s))
  else inr s.

(** Finally we can read some input.  A reader that returns no
    bytes and no error is asked again, a hundred times at most; the
    file of the model answers the same each time. *)
Definition readInput (s : Scanner) (f : os.File) : Scanner * os.File :=
  let '(chunk, eof, f') := os.Read f (buflen s - end_ s) in
  let s' := mkScanner (buflen s) (start s)
              (end_ s + String.length chunk)
              (pending s ++ chunk) (token s) (err s) in
  (if eof then setErr s' EOF
   else if (String.length chunk =? 0)%nat then setErr s' ErrNoProgress
   else s',
   f').

(** [inl] is a return from [Scan], [inr] goes round the loop
    again. *)
Definition readMore (s : Scanner) (f : os.File)
  : (bool * Scanner * os.File) + (Scanner * os.File) :=
  (* If we've already hit EOF or an I/O error, we are done. *)
  if isSome (err s) then
    inl (false,
         mkScanner (buflen s) 0 0 EmptyString (token s) (err s), f)
  else
    match growBuffer (shiftBuffer s) with
    | inl s' => inl (false, s', f)
    | inr s' => inr (readInput s' f)
    end.

(** One pass through the body of the [for] loop of [Scan]. *)
Definition Scan_pass (s : Scanner) (f : os.File)
  : (bool * Scanner * os.File) + (Scanner * os.File) :=
  match tryToken s with
  | inl (b, s') => inl (b, s', f)
  | inr s1 => readMore s1 f
  end.

Fixpoint Scan_loop (fuel : nat) (s : Scanner) (f : os.File)
  : option (bool * Scanner * os.File) :=
  match fuel with
  | O => None
  | S fuel' =>
      match Scan_pass s f with
      | inl r => Some r
      | inr (s', f') => Scan_loop fuel' s' f'
      end
  end.

(** [s.Scan()] for a scanner reading from [f]: every pass that
    does not return reads at least one byte or records an error, so
    the loop is over after at most [len(unread) + 2] passes. *)
Definition Scan (s : Scanner) (f : os.File) : bool * Scanner * os.File :=
  match Scan_loop (String.length (os.unread f) + 2) s f with
  | Some r => r
  | None => (false, s, f)
  end.

Definition Text (s : Scanner) : string := token s.

End bufio.

(** ** package main: configuration and request data *)

Record Config := mkConfig {
  ContainerDir : string;
  OutputLogDir : string;
  LogSinkSize : Z
}.

(** LogForwardInfo: JSON structure expected as request body on the
    /logs route. *)
Record LogForwardInfo := mkLogForwardInfo {
  LastOffset : Z;
  SizeLimit : Z;
  SentinelledLogs : bool;
  EncodedLogLineMetadata : string;
  EncodedActivation : string
}.

Definition logSentinelLine : string := "XXX_THE_END_OF_A_WHISK_ACTIVATION_XXX".

(** [fmt.Sprintf(truncatedLogMessage, limit)]. *)
Definition truncatedLogMessage (limit : Z) : string :=
  "Logs were truncated because the total bytes size exceeds the limit of "
    ++ fmt.d limit ++ " bytes.".

Definition genericLogErrorMessage : string :=
  "There was an issue while collecting your logs. Data might be missing.".

(** The line [writeSyntheticLogLine] sends; [now] is
    [time.Now().UTC().Format(time.RFC3339)]. *)
Definition syntheticLogLine (now msg metadata : string) : string :=
  js "{'log':'" ++ msg ++ js "', 'stream':'stderr', 'time':'" ++ now
    ++ js "'," ++ metadata ++ "}".

Definition writeSyntheticLogLine (now : string) (logSinkChannel : list string)
    (msg metadata : string) : list string :=
  (logSinkChannel ++ [syntheticLogLine now msg metadata])%list.

(** ** logScan *)

(** The variables of [logScan] that its loop reads and writes.  The
    scanner reads from [logFile], the same descriptor that [logScan]
    seeks on. *)
Record scanState := mkScanState {
  logFile : os.File;
  scanner : bufio.Scanner;
  sentinelsLeft : Z;
  bytesWritten : Z;
  logSinkChannel : list string
}.

(** [fmt.Sprintf("%s,%s}", logLine[:logLineLen-1], metadata)]. *)
Definition mungedLine (logLine metadata : string) : string :=
  take (String.length logLine - 1) logLine ++ "," ++ metadata ++ "}".

(** The body of the loop of [logScan] for one scanned [logLine]. *)
Definition scanLine (now : string) (lfi : LogForwardInfo) (st : scanState)
    (logLine : string) : outcome scanState :=
  if SentinelledLogs lfi && strings.Contains logLine logSentinelLine then
    Ret (mkScanState (logFile st) (scanner st) (sentinelsLeft st - 1)
           (bytesWritten st) (logSinkChannel st))
  else
    let logLineLen := Z.of_nat (String.length logLine) in
    let bytesWritten' := wrap64 (bytesWritten st + logLineLen) in
    if (logLineLen - 1 <? 0)%Z then
      Panic "runtime error: slice bounds out of range"
    else
      let chan1 :=
        (logSinkChannel st
           ++ [mungedLine logLine (EncodedLogLineMetadata lfi)])%list in
      if (SizeLimit lfi <? bytesWritten')%Z then
        let chan2 :=
          writeSyntheticLogLine now chan1
            (truncatedLogMessage (SizeLimit lfi)) (EncodedLogLineMetadata lfi) in
        (* Seek to end of logfile to skip rest of output *)
        let '(f', _, _) := os.Seek (logFile st) 0 2 in
        (* Cause loop to exit now. *)
        Ret (mkScanState f' (scanner st) 0 bytesWritten' chan2)
      else
        Ret (mkScanState (logFile st) (scanner st) (sentinelsLeft st)
               bytesWritten' chan1).

(** How the loop of [logScan] ends: normally, or in a panic after the
    lines [sentBefore] were sent. *)
Inductive loopExit :=
| Finished (st : scanState)
| Panicked (msg : string) (sentBefore : list string).

(** [for sentinelsLeft > 0 && scanner.Scan() { ... }]; [None] when
    [fuel] passes do not finish the loop. *)
Fixpoint scanLoop (fuel : nat) (now : string) (lfi : LogForwardInfo)
    (st : scanState) : option loopExit :=
  match fuel with
  | O => None
  | S fuel' =>
      if (0 <? sentinelsLeft st)%Z then
        let '(more, sc, f) := bufio.Scan (scanner st) (logFile st) in
        let st1 := mkScanState f sc (sentinelsLeft st) (bytesWritten st)
                     (logSinkChannel st) in
        if more then
          match scanLine now lfi st1 (bufio.Text sc) with
          | Ret st2 => scanLoop fuel' now lfi st2
          | Panic msg => Some (Panicked msg (logSinkChannel st1))
          end
        else Some (Finished st1)
      else Some (Finished st)
  end.

(** What a call leaves behind: the lines sent on the sink channel and
    the returned values, or a panic. *)
Record scanResult := mkScanResult {
  sent : list string;
  returned : outcome (Z * option string)
}.

(** The path of a container's log file. *)
Definition containerLog (cfg : Config) (container : string) : string :=
  ContainerDir cfg ++ "/" ++ container ++ "/" ++ container ++ "-json.log".

Definition logScan (cfg : Config) (fs : os.FileSystem) (now : string)
    (chan : list string) (container : string) (lfi : LogForwardInfo)
    : scanResult :=
  let logFileName := containerLog cfg container in
  match os.Open fs logFileName with
  | (_, Some e) =>
      mkScanResult chan
        (Ret (0%Z, Some ("Error opening " ++ logFileName ++ ": " ++ e)))
  | (None, None) =>
      mkScanResult chan (Panic "invalid memory address or nil pointer dereference")
  | (Some logFile0, None) =>
      let '(logFile1, offset, e) := os.Seek logFile0 (LastOffset lfi) 0 in
      if negb (offset =? LastOffset lfi)%Z || bufio.isSome e then
        mkScanResult chan
          (Ret (0%Z, Some ("Unable to seek to " ++ fmt.d (LastOffset lfi)
                             ++ " in log file")))
      else
        let st0 := mkScanState logFile1 bufio.NewScanner 2 0 chan in
        (* every pass of the loop that does not leave it consumes at
           least one byte of the unread part of the file *)
        match scanLoop (String.length (os.unread logFile1) + 1) now lfi st0 with
        | None => mkScanResult chan (Panic "loop did not finish")
        | Some (Panicked msg chan') => mkScanResult chan' (Panic msg)
        | Some (Finished st) =>
            if SentinelledLogs lfi && negb (sentinelsLeft st =? 0)%Z then
              mkScanResult (logSinkChannel st)
                (Ret (0%Z, Some "Failed to find expected sentinels in log file"))
            else
              (* Done copying log; write the activation record. *)
              let chan' := (logSinkChannel st ++ [EncodedActivation lfi])%list in
              let '(_, logFileOffset, e') := os.Seek (logFile st) 0 1 in
              match e' with
              | Some msg =>
                  mkScanResult chan'
                    (Ret (0%Z, Some ("Unable to determine current offset in log file: " ++ msg)))
              | None => mkScanResult chan' (Ret (logFileOffset, None))
              end
        end
  end.

(** ** The request handler *)

(** What a handler writes to the [http.ResponseWriter]. *)
Record Response := mkResponse { statusCode : Z; responseBody : string }.

(** [reportLoggingError]: the status code and message written to the
    response, and the notice sent on the sink channel when metadata
    was given. *)
Definition reportLoggingError (now : string) (chan : list string)
    (code : Z) (msg metadata : string) : list string * Response :=
  (if String.eqb metadata EmptyString then chan
   else writeSyntheticLogLine now chan genericLogErrorMessage metadata,
   mkResponse code msg).

Record handled := mkHandled {
  sentByHandler : list string;
  response : outcome Response
}.

(** [ForwardLogsFromUserAction] from the call of [logScan] on, for a
    request body that was parsed into [lfi].  [now] is the clock
    reading of a truncation notice, [now'] that of an error notice. *)
Definition forwardParsed (cfg : Config) (fs : os.FileSystem) (now now' : string)
    (chan : list string) (container : string) (lfi : LogForwardInfo)
    : handled :=
  let r := logScan cfg fs now chan container lfi in
  match returned r with
  | Panic msg => mkHandled (sent r) (Panic msg)
  | Ret (_, Some e) =>
      let '(chan1, resp) :=
        reportLoggingError now' (sent r) 500 e (EncodedLogLineMetadata lfi) in
      (* Write activation record before returning with error code. *)
      mkHandled (chan1 ++ [EncodedActivation lfi])%list (Ret resp)
  | Ret (logFileOffset, None) =>
      (* Success; return updated logFileOffset to invoker *)
      mkHandled (sent r) (Ret (mkResponse 200 (fmt.d logFileOffset)))
  end.

(** A request to the /logs/<container> route: the container named in
    the URL and what [ioutil.ReadAll(r.Body)] returns. *)
Record Request := mkRequest {
  container : string;
  bodyBytes : string;
  bodyError : option string
}.

Section Handler.

(** package encoding/json, as far as [Unmarshal] into a
    [*LogForwardInfo] goes: the syntax check of the input, and the
    decoding of well-formed input into the pointed-to struct. *)
Variable checkValid : string -> option string.
Variable decode : string -> LogForwardInfo -> LogForwardInfo * option string.

(** [json.Unmarshal(data, v)] for [v] of type [*LogForwardInfo];
    [None] is the nil pointer.  Returns the struct [v] points to
    afterwards, and the error. *)
Definition Unmarshal (data : string) (v : option LogForwardInfo)
  : option LogForwardInfo * option string :=
  match checkValid data with
  | Some e => (v, Some e)
  | None =>
      match v with
      | None => (None, Some "json: Unmarshal(nil *main.LogForwardInfo)")
      | Some x => let '(x', e) := decode data x in (Some x', e)
      end
  end.

Definition parseLogForwardInfo (r : Request)
  : option LogForwardInfo * option string :=
  let lfi : option LogForwardInfo := None in
  match bodyError r with
  | Some e => (None, Some ("Error reading request body: " ++ e))
  | None =>
      let '(lfi', e) := Unmarshal (bodyBytes r) lfi in
      match e with
      | Some e => (None, Some ("Error unmarshalling request body: " ++ e))
      | None => (lfi', None)
      end
  end.

Definition ForwardLogsFromUserAction (cfg : Config) (fs : os.FileSystem)
    (now now' : string) (chan : list string) (r : Request) : handled :=
  match parseLogForwardInfo r with
  | (_, Some e) =>
      (* Return 400 status code if a parsing error occurred. *)
      let '(chan1, resp) := reportLoggingError now' chan 400 e EmptyString in
      mkHandled chan1 (Ret resp)
  | (Some lfi, None) => forwardParsed cfg fs now now' chan (container r) lfi
  | (None, None) =>
      mkHandled chan (Panic "invalid memory address or nil pointer dereference")
  end.

End Handler.

(** ** The sink writer *)

(** The output directory: contents of the sink files by name. *)
Definition Disk := string -> option string.

Definition writeFile (d : Disk) (name contents : string) : Disk :=
  fun n => if String.eqb n name then Some contents else d n.

(** The variables of [logWriter] and the directory it writes to;
    [sinkFile] is the name of the open file, [None] for nil. *)
Record sinkState := mkSinkState {
  sinkFile : option string;
  sinkFileBytes : Z;
  disk : Disk
}.

(** What one pass of the loop of [logWriter] meets: the line received,
    [time.Now().UnixNano()], and the errors of [os.Create] and
    [fmt.Fprintln], if any. *)
Record sinkInput := mkSinkInput {
  line : string;
  unixNano : Z;
  createError : option string;
  writeError : option string
}.

Definition sinkFileName (cfg : Config) (unixNano : Z) : string :=
  let timestamp := Z.quot unixNano 1000000 in
  OutputLogDir cfg ++ "/userlogs-" ++ fmt.d timestamp ++ ".log".

(** One pass of the loop of [logWriter]. *)
Definition logWriter_pass (cfg : Config) (st : sinkState) (i : sinkInput)
    : outcome sinkState :=
  let opened :=
    match sinkFile st with
    | None =>
        let fname := sinkFileName cfg (unixNano i) in
        match createError i with
        | Some e => Panic e
        | None => Ret (fname, 0%Z, writeFile (disk st) fname EmptyString)
        end
    | Some fname => Ret (fname, sinkFileBytes st, disk st)
    end in
  match opened with
  | Panic e => Panic e
  | Ret (fname, bytes, d) =>
      match writeError i with
      | Some e => Panic e
      | None =>
          let old := match d fname with Some c => c | None => EmptyString end in
          let d' := writeFile d fname (old ++ line i ++ nl) in
          let bytesWritten := Z.of_nat (String.length (line i) + 1) in
          let bytes' := wrap64 (bytes + bytesWritten) in
          if (LogSinkSize cfg <? bytes')%Z
          then Ret (mkSinkState None bytes' d')
          else Ret (mkSinkState (Some fname) bytes' d')
      end
  end.

(** The writer over the lines it receives, one after the other. *)
Fixpoint logWriter (cfg : Config) (st : sinkState) (inputs : list sinkInput)
    : outcome sinkState :=
  match inputs with
  | [] => Ret st
  | i :: inputs' =>
      match logWriter_pass cfg st i with
      | Ret st' => logWriter cfg st' inputs'
      | Panic e => Panic e
      end
  end.

Definition sinkStart : sinkState := mkSinkState None 0 (fun _ => None).

(** The file a pass of the writer writes to: the open one, or the
    one it creates. *)
Definition sinkTarget (cfg : Config) (st : sinkState) (i : sinkInput)
    : string :=
  match sinkFile st with
  | None => sinkFileName cfg (unixNano i)
  | Some fname => fname
  end.

(** The byte count and the contents the pass starts from: those of
    the open file, or zero and nothing for a file it creates. *)
Definition sinkBytesBefore (st : sinkState) : Z :=
  match sinkFile st with
  | None => 0%Z
  | Some _ => sinkFileBytes st
  end.

Definition sinkContentsBefore (st : sinkState) : string :=
  match sinkFile st with
  | None => EmptyString
  | Some fname =>
      match disk st fname with Some c => c | None => EmptyString end
  end.

(** ** The lines of a log file, and the scan read line by line *)

(** The lines of a byte string, each with its terminator (the last
    one may lack it). *)
Fixpoint rawLines (s : string) : list string :=
  match s with
  | EmptyString => []
  | String c s' =>
      if Ascii.eqb c newline then String c EmptyString :: rawLines s'
      else match rawLines s' with
           | [] => [String c EmptyString]
           | l :: ls => String c l :: ls
           end
  end.

(** A line without its terminator. *)
Definition chomp (raw : string) : string :=
  match IndexByte newline raw with
  | Some i => take i raw
  | None => raw
  end.

(** The text [bufio.ScanLines] makes of a line. *)
Definition lineText (raw : string) : string := bufio.dropCR (chomp raw).

(** How far the first line of a non-empty string reaches. *)
Definition lineEnd (s : string) : nat :=
  match IndexByte newline s with
  | Some i => S i
  | None => String.length s
  end.

Definition isSentinel (lfi : LogForwardInfo) (text : string) : bool :=
  SentinelledLogs lfi && strings.Contains text logSentinelLine.

Fixpoint concatLines (ls : list string) : string :=
  match ls with
  | [] => EmptyString
  | l :: ls' => l ++ concatLines ls'
  end.

Module Lines.

(** The loop of [logScan] as the specification has it: over the
    lines of the unread region, one line at a time, without a
    read-ahead buffer.  [scanLine] is the loop body of the source;
    of its state only the counters and the channel matter here. *)
Record acc := mkAcc {
  sentSoFar : list string;
  left : Z;
  bytes : Z
}.

Definition acc_of (st : scanState) : acc :=
  mkAcc (logSinkChannel st) (sentinelsLeft st) (bytesWritten st).

(** How the loop ends: with the counters and channel [a], for the
    size limit or not, and the lines [rest] left unconsumed; or in
    a panic after the lines [sentBefore] were sent. *)
Inductive result :=
| Stopped (a : acc) (truncated : bool) (rest : list string)
| Crashed (msg : string) (sentBefore : list string).

(** A line of [bufio.MaxScanTokenSize] bytes or more ends the scan
    like the end of the file does. *)
Fixpoint forward (now : string) (lfi : LogForwardInfo) (ls : list string)
    (a : acc) : result :=
  match ls with
  | [] => Stopped a false []
  | raw :: ls' =>
      if negb (0 <? left a)%Z then Stopped a false ls
      else if (bufio.MaxScanTokenSize <=? String.length (chomp raw))%nat
      then Stopped a false ls
      else
        let text := lineText raw in
        if isSentinel lfi text then
          forward now lfi ls' (mkAcc (sentSoFar a) (left a - 1) (bytes a))
        else if (String.length text =? 0)%nat then
          Crashed "runtime error: slice bounds out of range" (sentSoFar a)
        else
          let bytes' := wrap64 (bytes a + Z.of_nat (String.length text)) in
          let sent1 :=
            (sentSoFar a ++ [mungedLine text (EncodedLogLineMetadata lfi)])%list in
          if (SizeLimit lfi <? bytes')%Z then
            Stopped
              (mkAcc
                 (sent1 ++ [syntheticLogLine now
                              (truncatedLogMessage (SizeLimit lfi))
                              (EncodedLogLineMetadata lfi)])%list
                 0 bytes')
              true ls'
          else forward now lfi ls' (mkAcc sent1 (left a) bytes')
  end.

(** The region a scan reads: the file from [LastOffset] on. *)
Definition region (data : string) (lfi : LogForwardInfo) : string :=
  drop (Z.to_nat (LastOffset lfi)) data.

Definition scan (now : string) (lfi : LogForwardInfo) (chan : list string)
    (data : string) : result :=
  forward now lfi (rawLines (region data lfi)) (mkAcc chan 2 0).

(** The byte position immediately after the last line consumed,
    when [rest] are the lines left over. *)
Definition consumedEnd (data : string) (lfi : LogForwardInfo)
    (rest : list string) : Z :=
  LastOffset lfi + Z.of_nat (String.length (region data lfi))
    - Z.of_nat (String.length (concatLines rest)).

(** The offset a scan that reads line by line returns: the end of
    the file after a truncation, else the byte position immediately
    after the last line consumed. *)
Definition resumeOffset (data : string) (lfi : LogForwardInfo)
    (truncated : bool) (rest : list string) : Z :=
  if truncated then Z.of_nat (String.length data)
  else consumedEnd data lfi rest.

End Lines.

(** ** Invariants of the scanner *)

(** What the scanner has not handed out yet: the rest of its buffer
    and the unread part of the file. *)
Definition unconsumed (s : bufio.Scanner) (f : os.File) : string :=
  bufio.pending s ++ os.unread f.

Record scanner_ok (s : bufio.Scanner) (f : os.File) : Prop := mkScannerOk {
  ok_len : String.length (bufio.pending s) = bufio.end_ s - bufio.start s;
  ok_start : bufio.start s <= bufio.end_ s;
  ok_end : bufio.end_ s <= bufio.buflen s;
  ok_buf : bufio.buflen s <= bufio.MaxScanTokenSize;
  ok_err : bufio.err s = None
           \/ (bufio.err s = Some bufio.EOF /\ os.unread f = EmptyString
               /\ String.length (bufio.pending s) < bufio.MaxScanTokenSize);
  ok_pos : (0 <= os.pos f)%Z;
  ok_inside : bufio.pending s <> EmptyString -> (os.pos f <= os.size f)%Z
}.

(** The passes [Scan] can still make without returning. *)
Definition passesLeft (s : bufio.Scanner) (f : os.File) : nat :=
  String.length (os.unread f)
  + match bufio.err s with None => 1 | Some _ => 0 end.

(** What a call of [Scan] that returns [more] has done. *)
Definition scanned (s : bufio.Scanner) (f : os.File)
    (more : bool) (s' : bufio.Scanner) (f' : os.File) : Prop :=
  let u := unconsumed s f in
  os.data f' = os.data f
  /\ (os.pos f <= os.pos f' <= Z.max (os.pos f) (os.size f))%Z
  /\ if more then
       u <> EmptyString
       /\ String.length (chomp (take (lineEnd u) u)) < bufio.MaxScanTokenSize
       /\ bufio.token s' = lineText (take (lineEnd u) u)
       /\ unconsumed s' f' = drop (lineEnd u) u
       /\ scanner_ok s' f'
     else
       unconsumed s' f' = u
       /\ (u = EmptyString
           \/ bufio.MaxScanTokenSize
              <= String.length (chomp (take (lineEnd u) u))).

(** What the loop of [logScan] has made of the state [st] when the
    line-by-line scan stops with [a], [truncated] and [rest]. *)
Definition finishedAs (st st' : scanState) (a : Lines.acc)
    (truncated : bool) (rest : list string) : Prop :=
  Lines.acc_of st' = a
  /\ os.data (logFile st') = os.data (logFile st)
  /\ (os.pos (logFile st) <= os.pos (logFile st')
      <= Z.max (os.pos (logFile st)) (os.size (logFile st)))%Z
  /\ if truncated then os.pos (logFile st') = os.size (logFile st)
     else unconsumed (scanner st') (logFile st') = concatLines rest.

(** ** Vocabulary of the statements *)

(** The texts of the lines that are not sentinels, in order. *)
Definition contentLines (lfi : LogForwardInfo) (raws : list string)
    : list string :=
  filter (fun t => negb (isSentinel lfi t)) (map lineText raws).

(** How many of the lines are sentinels. *)
Definition sentinelCount (lfi : LogForwardInfo) (raws : list string) : nat :=
  List.length (filter (isSentinel lfi) (map lineText raws)).

(** The cumulative byte length of the content lines. *)
Definition contentBytes (lfi : LogForwardInfo) (raws : list string) : Z :=
  Z.of_nat (list_sum (map String.length (contentLines lfi raws))).

(** The content lines as they are forwarded. *)
Definition mungedLines (lfi : LogForwardInfo) (raws : list string)
    : list string :=
  map (fun t => mungedLine t (EncodedLogLineMetadata lfi))
    (contentLines lfi raws).

(** A line the scanner hands out and the loop body can munge: shorter
    than the scanner's largest buffer, and not empty. *)
Definition scannable (raw : string) : Prop :=
  String.length (chomp raw) < bufio.MaxScanTokenSize
  /\ lineText raw <> EmptyString.

(** The counters and channel after the lines [pre] went through the
    loop without ending it. *)
Definition after (lfi : LogForwardInfo) (pre : list string) (a : Lines.acc)
    : Lines.acc :=
  Lines.mkAcc (Lines.sentSoFar a ++ mungedLines lfi pre)%list
    (Lines.left a - Z.of_nat (sentinelCount lfi pre))
    (Lines.bytes a + contentBytes lfi pre).

(** A line that the loop body takes for a sentinel: it counts one
    sentinel down and sends nothing. *)
Definition consumedAsSentinel (now : string) (lfi : LogForwardInfo)
    (st : scanState) (logLine : string) : Prop :=
  scanLine now lfi st logLine
  = Ret (mkScanState (logFile st) (scanner st) (sentinelsLeft st - 1)
           (bytesWritten st) (logSinkChannel st)).

(** A line that the loop body forwards as content: the munged line
    is the next line sent, and no sentinel is counted. *)
Definition forwardedAsContent (now : string) (lfi : LogForwardInfo)
    (st : scanState) (logLine : string) : Prop :=
  exists st' more,
    scanLine now lfi st logLine = Ret st'
    /\ logSinkChannel st'
       = (logSinkChannel st
            ++ mungedLine logLine (EncodedLogLineMetadata lfi) :: more)%list
    /\ (sentinelsLeft st' = sentinelsLeft st \/ sentinelsLeft st' = 0%Z).

(** ** Sample inputs *)

Definition sampleConfig : Config :=
  mkConfig "/containers" "/action-logs" (100 * 1024 * 1024).

(** A file system with one container log, of container c1. *)
Definition oneLog (data : string) : os.FileSystem :=
  fun name =>
    if String.eqb name "/containers/c1/c1-json.log" then os.Opened data
    else os.OpenFailed "no such file or directory".

(** The file and the cursor of the concrete scenario. *)
Definition scenarioFile : string :=
  js "{'a':1}" ++ nl ++ js "{'a':2}" ++ nl
    ++ logSentinelLine ++ nl ++ logSentinelLine ++ nl.

Definition scenarioCursor : LogForwardInfo :=
  mkLogForwardInfo 0 1000 true (js "'foo':'bar'") "ACT1".

(** What the scenario expects on the sink channel: two lines ending
    in the metadata and a closing brace, then the activation record. *)
Definition scenarioSuffix : string := js ",'foo':'bar'}".

Definition scenarioSent : list string :=
  [js "{'a':1" ++ scenarioSuffix; js "{'a':2" ++ scenarioSuffix; "ACT1"].

(** Two content lines around a single sentinel. *)
Definition oneSentinelFile : string :=
  js "{'a':1}" ++ nl ++ logSentinelLine ++ nl ++ js "{'a':2}" ++ nl.

(** Two content lines and no sentinel, and a cursor in sentinel mode
    whose size limit the first line exceeds. *)
Definition noSentinelFile : string :=
  js "{'a':1}" ++ nl ++ js "{'a':2}" ++ nl.

Definition tightCursor : LogForwardInfo :=
  mkLogForwardInfo 0 3 true (js "'foo':'bar'") "ACT1".

(** A cursor without sentinels whose size limit the second line of
    [noSentinelFile] exceeds. *)
Definition tenByteCursor : LogForwardInfo :=
  mkLogForwardInfo 0 10 false (js "'foo':'bar'") "ACT1".

(** Two sentinels and then a content line. *)
Definition sentinelsFirstFile : string :=
  logSentinelLine ++ nl ++ logSentinelLine ++ nl ++ js "{'a':1}" ++ nl.

(** Two sentinels and then six hundred content lines, more than the
    scanner reads at once; and a cursor whose size limit is out of
    reach. *)
Fixpoint replicate (n : nat) (s : string) : string :=
  match n with
  | O => EmptyString
  | S n' => s ++ replicate n' s
  end.

Definition longLog : string :=
  logSentinelLine ++ nl ++ logSentinelLine ++ nl
    ++ replicate 600 (js "{'a':1}" ++ nl).

Definition longCursor : LogForwardInfo :=
  mkLogForwardInfo 0 1000000 true (js "'foo':'bar'") "ACT1".

(** The cursor of the next scan: [lfi] with [LastOffset] set to the
    resume offset [r]. *)
Definition resumeAt (lfi : LogForwardInfo) (r : Z) : LogForwardInfo :=
  mkLogForwardInfo r (SizeLimit lfi) (SentinelledLogs lfi)
    (EncodedLogLineMetadata lfi) (EncodedActivation lfi).

(** A writer that rotates after every line, and two lines that
    arrive within one millisecond. *)
Definition eagerConfig : Config := mkConfig "/containers" "/action-logs" 0.

Definition firstInput : sinkInput :=
  mkSinkInput "first" 1527854400000100000 None None.

Definition secondInput : sinkInput :=
  mkSinkInput "second" 1527854400000900000 None None.

(** An empty line between two content lines. *)
Definition emptyLineFile : string :=
  js "{'a':1}" ++ nl ++ nl ++ js "{'a':2}" ++ nl.

(** A sentinel as Docker's json-file log driver writes it. *)
Definition dockerSentinel : string :=
  js "{'log':'XXX_THE_END_OF_A_WHISK_ACTIVATION_XXX\n','stream':'stdout','time':'2018-06-01T12:00:00.000000000Z'}".

Definition sampleState : scanState :=
  mkScanState (os.mkFile EmptyString 0) bufio.NewScanner 2 0 [].

(** ** package strconv: ParseInt in base 10 with 64 bits, and Atoi *)
Module strconv.

Inductive errKind := ErrSyntax | ErrRange.

(** A [*NumError]: the function, the input and the failure. *)
Record NumError := mkNumError {
  Func : string;
  Num : string;
  Err : errKind
}.

Definition maxUint64 : Z := 2 ^ 64 - 1.

(** The value of a decimal digit, [None] for any other byte. *)
Definition digit (c : ascii) : option Z :=
  let n := nat_of_ascii c in
  if (48 <=? n)%nat && (n <=? 57)%nat then Some (Z.of_nat (n - 48))
  else None.

(** The loop of [ParseUint] over the bytes of its input, with [n]
    the number read so far: a byte that is no digit is a syntax
    error, a number that leaves 64 bits a range error, whichever
    comes first. *)
Fixpoint parseDigits (n : Z) (s : string) : Z + errKind :=
  match s with
  | EmptyString => inl n
  | String c s' =>
      match digit c with
      | None => inr ErrSyntax
      | Some d =>
          if (maxUint64 / 10 + 1 <=? n)%Z then inr ErrRange
          else
            let n1 := (n * 10 + d)%Z in
            if (maxUint64 <? n1)%Z then inr ErrRange
            else parseDigits n1 s'
      end
  end.

(** [ParseUint(s, 10, 64)]. *)
Definition ParseUint (s : string) : Z * option errKind :=
  match s with
  | EmptyString => (0%Z, Some ErrSyntax)
  | _ =>
      match parseDigits 0 s with
      | inl n => (n, None)
      | inr ErrSyntax => (0%Z, Some ErrSyntax)
      | inr ErrRange => (maxUint64, Some ErrRange)
      end
  end.

(** [ParseInt(s, 10, 64)], reporting errors under the name [fn]. *)
Definition parseInt (fn : string) (s0 : string) : Z * option NumError :=
  match s0 with
  | EmptyString => (0%Z, Some (mkNumError fn s0 ErrSyntax))
  | String c rest =>
      (* Pick off leading sign. *)
      let neg := Ascii.eqb c "-" in
      let s := if Ascii.eqb c "+" || neg then rest else s0 in
      (* Convert unsigned and check range. *)
      match ParseUint s with
      | (_, Some ErrSyntax) => (0%Z, Some (mkNumError fn s0 ErrSyntax))
      | (un, _) =>
          let cutoff := (2 ^ 63)%Z in
          if negb neg && (cutoff <=? un)%Z then
            ((cutoff - 1)%Z, Some (mkNumError fn s0 ErrRange))
          else if neg && (cutoff <? un)%Z then
            ((- cutoff)%Z, Some (mkNumError fn s0 ErrRange))
          else ((if neg then - un else un)%Z, None)
      end
  end.

Definition ParseInt (s : string) : Z * option NumError :=
  parseInt "ParseInt" s.

(** [Atoi(s)] on a 64-bit target: [ParseInt(s, 10, 0)] under the
    name Atoi; its fast path for short inputs gives the same
    results. *)
Definition Atoi (s : string) : Z * option NumError := parseInt "Atoi" s.

End strconv.

(** ** package main: the configuration from the environment *)

(** [os.LookupEnv]: the value of a variable, [None] when it is not
    set. *)
Definition Env := string -> option string.

(** The struct [Config] in full; the fields that the log forwarder
    reads are those of [Config] above. *)
Record ProcessConfig := mkProcessConfig {
  TimeOps : bool;
  DockerSock : string;
  InvokerAgentPort : Z;
  forwarding : Config
}.

Definition defaultDockerSock : string := "/var/run/docker.sock".
Definition defaultContainerDir : string := "/containers".
Definition defaultOutputLogDir : string := "/action-logs".
Definition defaultInvokerAgentPort : Z := 3233.
Definition defaultLogSinkSize : Z := 100 * 1024 * 1024.

(** What a panic at startup carries: an error made of a message, or
    the [*NumError] of a failed conversion. *)
Inductive panicValue :=
| ErrorValue (msg : string)
| NumErrorValue (e : strconv.NumError).

Inductive startup (A : Type) : Type :=
| Configured (a : A)
| Died (v : panicValue).
Arguments Configured {A} a.
Arguments Died {A} v.

Definition isASCII (c : ascii) : bool := (nat_of_ascii c <? 128)%nat.

Definition lowerASCII (c : ascii) : ascii :=
  let n := nat_of_ascii c in
  if (65 <=? n)%nat && (n <=? 90)%nat then ascii_of_nat (n + 32) else c.

Fixpoint allASCII (s : string) : bool :=
  match s with
  | EmptyString => true
  | String c s' => isASCII c && allASCII s'
  end.

Fixpoint mapBytes (f : ascii -> ascii) (s : string) : string :=
  match s with
  | EmptyString => EmptyString
  | String c s' => String (f c) (mapBytes f s')
  end.

Section ConfigFromEnv.

(** [strings.Map(unicode.ToLower, s)] for the strings that are not
    pure ASCII. *)
Variable unicodeToLower : string -> string.

(** [strings.ToLower]. *)
Definition ToLower (s : string) : string :=
  if allASCII s then mapBytes lowerASCII s else unicodeToLower s.

Definition getTimeOpsFromEnv (env : Env) : startup bool :=
  match env "INVOKER_AGENT_TIME_TRACE" with
  | Some value =>
      let str := ToLower value in
      if String.eqb str "true" then Configured true
      else if String.eqb str "false" then Configured false
      else
        Died (ErrorValue
                "invalid INVOKER_AGENT_TIME_TRACE variable, should be one of true or false")
  | None => Configured false
  end.

Definition getPortFromEnv (env : Env) : startup Z :=
  match env "INVOKER_AGENT_PORT" with
  | Some value =>
      match strconv.Atoi value with
      | (_, Some e) => Died (NumErrorValue e)
      | (invokerAgentPort, None) => Configured invokerAgentPort
      end
  | None => Configured defaultInvokerAgentPort
  end.

Definition getLogSinkSizeFromEnv (env : Env) : startup Z :=
  match env "INVOKER_AGENT_LOG_SINK_SIZE" with
  | Some value =>
      match strconv.ParseInt value with
      | (_, Some e) => Died (NumErrorValue e)
      | (logSinkSize, None) => Configured logSinkSize
      end
  | None => Configured defaultLogSinkSize
  end.

Definition getEnvWithFallback (env : Env) (envKey fallback : string)
    : string :=
  match env envKey with
  | Some value => value
  | None => fallback
  end.

(** [NewConfigFromEnv]: the fields are set in the order of the
    source, so the first setting that panics is the one reported. *)
Definition NewConfigFromEnv (env : Env) : startup ProcessConfig :=
  match getTimeOpsFromEnv env with
  | Died v => Died v
  | Configured timeOps =>
      match getPortFromEnv env with
      | Died v => Died v
      | Configured port =>
          match getLogSinkSizeFromEnv env with
          | Died v => Died v
          | Configured logSinkSize =>
              Configured
                (mkProcessConfig timeOps
                   (getEnvWithFallback env "INVOKER_AGENT_DOCKER_SOCK"
                      defaultDockerSock)
                   port
                   (mkConfig
                      (getEnvWithFallback env "INVOKER_AGENT_CONTAINER_DIR"
                         defaultContainerDir)
                      (getEnvWithFallback env "INVOKER_AGENT_OUTPUT_LOG_DIR"
                         defaultOutputLogDir)
                      logSinkSize))
          end
      end
  end.

End ConfigFromEnv.

(** ** Suspend and resume *)

(** What the handlers of the /suspend and /resume routes have in
    common, as [handleRequests] uses them: given the container of the
    URL and the answer of the backend, the response. *)
Class SuspendResumeOps (Backend : Type) := {
  Suspend : string -> Backend -> Response;
  Resume : string -> Backend -> Response
}.

(** The runc backend: [cmd.Run()] of docker-runc with the given
    arguments returns an error or nil. *)
Definition RuncBackend := list string -> option string.

Definition runcRespond (doing : string) (container : string)
    (err : option string) : Response :=
  match err with
  | Some e =>
      mkResponse 500
        (doing ++ " " ++ container ++ " failed with error: " ++ e ++ nl)
  | None => mkResponse 204 EmptyString
  end.

#[export] Instance RuncSuspendResumeOps : SuspendResumeOps RuncBackend := {
  Suspend container run :=
    runcRespond "Pausing" container (run ["pause"; container]);
  Resume container run :=
    runcRespond "Unpausing" container (run ["resume"; container])
}.

(** The Docker backend: [client.Post(url, "text/plain", "")] on the
    Docker socket returns an error or a response with a status code. *)
Inductive postResult :=
| PostFailed (err : string)
| PostAnswered (StatusCode : Z).

Definition DockerBackend := string -> postResult.

Definition dockerRespond (doing : string) (container : string)
    (r : postResult) : Response :=
  match r with
  | PostFailed e =>
      mkResponse 500
        (doing ++ " " ++ container ++ " failed with error: " ++ e ++ nl)
  | PostAnswered code =>
      if (code =? 409)%Z then
        mkResponse 204 (container ++ " is already unpaused. " ++ nl)
      else if (code <? 200)%Z || (299 <? code)%Z then
        mkResponse 500
          (doing ++ " " ++ container ++ " failed with status code: "
             ++ fmt.d code ++ nl)
      else mkResponse 204 EmptyString
  end.

#[export] Instance DockerSuspendResumeOps : SuspendResumeOps DockerBackend := {
  Suspend container post :=
    dockerRespond "Pausing" container
      (post ("http://localhost/containers/" ++ container ++ "/pause"));
  Resume container post :=
    dockerRespond "Unpausing" container
      (post ("http://localhost/containers/" ++ container ++ "/unpause"))
}.

(** ** Vocabulary of the further statements *)

(** A string that ends where a line ends: empty, or with a newline
    as its last byte. *)
Definition endsLines (s : string) : Prop :=
  s = EmptyString \/ last_byte s = Some newline.

(** Every line as it is forwarded when no line is a sentinel. *)
Definition allMunged (lfi : LogForwardInfo) (raws : list string)
    : list string :=
  map (fun raw => mungedLine (lineText raw) (EncodedLogLineMetadata lfi)) raws.

(** The bytes the writer appends for the lines [ls]. *)
Fixpoint written (ls : list string) : string :=
  match ls with
  | [] => EmptyString
  | l :: ls' => l ++ nl ++ written ls'
  end.

(** The counter of the writer agrees with the open file and is
    within the rotation threshold. *)
Definition sinkConsistent (cfg : Config) (st : sinkState) : Prop :=
  match sinkFile st with
  | None => True
  | Some fname =>
      exists contents,
        disk st fname = Some contents
        /\ sinkFileBytes st = Z.of_nat (String.length contents)
        /\ (sinkFileBytes st <= LogSinkSize cfg)%Z
  end.

(** The number that the decimal digits [d] make after the number
    [n] read so far. *)
Fixpoint uintValue (n : Z) (d : Decimal.uint) : Z :=
  match d with
  | Decimal.Nil => n
  | Decimal.D0 l => uintValue (n * 10 + 0) l
  | Decimal.D1 l => uintValue (n * 10 + 1) l
  | Decimal.D2 l => uintValue (n * 10 + 2) l
  | Decimal.D3 l => uintValue (n * 10 + 3) l
  | Decimal.D4 l => uintValue (n * 10 + 4) l
  | Decimal.D5 l => uintValue (n * 10 + 5) l
  | Decimal.D6 l => uintValue (n * 10 + 6) l
  | Decimal.D7 l => uintValue (n * 10 + 7) l
  | Decimal.D8 l => uintValue (n * 10 + 8) l
  | Decimal.D9 l => uintValue (n * 10 + 9) l
  end.

(** ** Further sample inputs *)

(** The lines of the scenario's file before its second sentinel. *)
Definition scenarioHead : list string :=
  [js "{'a':1}" ++ nl; js "{'a':2}" ++ nl; logSentinelLine ++ nl].

(** A log of one line, and the line that is added to it later. *)
Definition firstHalf : string := js "{'a':1}" ++ nl.
Definition secondHalf : string := js "{'a':2}" ++ nl.

Definition secondHalfCursor : LogForwardInfo :=
  mkLogForwardInfo 8 1000 false (js "'foo':'bar'") "ACT1".

(** An environment that sets the port and the sink size only, one
    that sets nothing, and one where every variable is set and
    empty. *)
Definition portEnv : Env :=
  fun key =>
    if String.eqb key "INVOKER_AGENT_PORT" then Some "70000"
    else if String.eqb key "INVOKER_AGENT_LOG_SINK_SIZE" then Some "-5"
    else None.

Definition emptyEnv : Env := fun _ => None.

Definition blankEnv : Env := fun _ => Some EmptyString.

(** A writer with room for both sample lines in one file. *)
Definition roomyConfig : Config := mkConfig "/containers" "/action-logs" 100.

(** A log whose second line has as many bytes as the scanner's
    largest buffer, between two ordinary lines. *)
Definition overlongLine : string :=
  replicate bufio.MaxScanTokenSize "x" ++ nl.

Definition overlongFile : string := firstHalf ++ overlongLine ++ secondHalf.

(** The values the numeric settings can have: an optional sign and
    then one decimal digit or more. *)
Fixpoint allDigits (s : string) : bool :=
  match s with
  | EmptyString => true
  | String c s' =>
      match strconv.digit c with
      | Some _ => allDigits s'
      | None => false
      end
  end.

Definition isDecimal (v : string) : bool :=
  match v with
  | EmptyString => false
  | String c rest =>
      let digits := if Ascii.eqb c "+" || Ascii.eqb c "-" then rest else v in
      negb (String.eqb digits EmptyString) && allDigits digits
  end.

(** * Properties *)

(** ** Byte strings *)

Lemma append_nil_r (s : string) : s ++ "" = s.
Proof. induction s; simpl; congruence. Qed.

Lemma append_assoc (a b c : string) : (a ++ b) ++ c = a ++ (b ++ c).
Proof. induction a; simpl; congruence. Qed.

Lemma length_append (a b : string) :
  String.length (a ++ b) = String.length a + String.length b.
Proof. induction a; simpl; auto. Qed.

Lemma length_zero (s : string) : String.length s = 0 -> s = "".
Proof. destruct s; simpl; [reflexivity | discriminate]. Qed.

Lemma take_drop (n : nat) (s : string) : take n s ++ drop n s = s.
Proof.
  revert s; induction n as [|n IH]; intros [|c s]; simpl; auto.
  now rewrite IH.
Qed.

Lemma length_take (n : nat) (s : string) :
  String.length (take n s) = Nat.min n (String.length s).
Proof.
  revert s; induction n as [|n IH]; intros [|c s]; simpl; auto.
Qed.

Lemma length_drop (n : nat) (s : string) :
  String.length (drop n s) = String.length s - n.
Proof.
  revert s; induction n as [|n IH]; intros [|c s]; simpl; auto.
Qed.

Lemma take_all (n : nat) (s : string) : String.length s <= n -> take n s = s.
Proof.
  revert s; induction n as [|n IH]; intros [|c s]; simpl; intros H; auto;
    try lia.
  f_equal; apply IH; lia.
Qed.

Lemma drop_all (n : nat) (s : string) : String.length s <= n -> drop n s = "".
Proof.
  revert s; induction n as [|n IH]; intros [|c s]; simpl; intros H; auto;
    try lia.
  apply IH; lia.
Qed.

Lemma drop_drop (n m : nat) (s : string) : drop n (drop m s) = drop (m + n) s.
Proof.
  revert s; induction m as [|m IH]; intros s; simpl.
  - reflexivity.
  - destruct s as [|c s]; simpl; [now destruct n | apply IH].
Qed.

Lemma take_append_l (n : nat) (a b : string) :
  n <= String.length a -> take n (a ++ b) = take n a.
Proof.
  revert a; induction n as [|n IH]; intros [|c a]; simpl; intros H; auto;
    try lia.
  f_equal; apply IH; lia.
Qed.

Lemma drop_append_l (n : nat) (a b : string) :
  n <= String.length a -> drop n (a ++ b) = drop n a ++ b.
Proof.
  revert a; induction n as [|n IH]; intros [|c a]; simpl; intros H; auto;
    try lia.
  apply IH; lia.
Qed.

Lemma IndexByte_bound (c : ascii) (s : string) (i : nat) :
  IndexByte c s = Some i -> i < String.length s.
Proof.
  revert i; induction s as [|d s IH]; simpl; intros i H; [discriminate|].
  destruct (Ascii.eqb d c).
  - injection H as <-; lia.
  - destruct (IndexByte c s) as [j|]; [|discriminate].
    injection H as <-. specialize (IH j eq_refl); lia.
Qed.

Lemma IndexByte_append_l (c : ascii) (a b : string) (i : nat) :
  IndexByte c a = Some i -> IndexByte c (a ++ b) = Some i.
Proof.
  revert i; induction a as [|d a IH]; simpl; intros i H; [discriminate|].
  destruct (Ascii.eqb d c); auto.
  destruct (IndexByte c a) as [j|]; [|discriminate].
  now rewrite (IH j eq_refl).
Qed.

Lemma IndexByte_append_r (c : ascii) (a b : string) :
  IndexByte c a = None ->
  IndexByte c (a ++ b) =
    option_map (fun i => String.length a + i) (IndexByte c b).
Proof.
  induction a as [|d a IH]; simpl; intros H.
  - now destruct (IndexByte c b).
  - destruct (Ascii.eqb d c); [discriminate|].
    destruct (IndexByte c a); [discriminate|].
    rewrite IH by reflexivity. now destruct (IndexByte c b).
Qed.

(** ** Lines *)

Lemma lineEnd_pos (s : string) : s <> "" -> 0 < lineEnd s <= String.length s.
Proof.
  intros Hs. unfold lineEnd.
  destruct (IndexByte newline s) as [i|] eqn:E.
  - apply IndexByte_bound in E. lia.
  - destruct s; [congruence | simpl; lia].
Qed.

Lemma rawLines_step (s : string) :
  s <> "" -> rawLines s = take (lineEnd s) s :: rawLines (drop (lineEnd s) s).
Proof.
  induction s as [|c s IH]; intros Hs; [congruence|].
  unfold lineEnd. simpl.
  destruct (Ascii.eqb c newline) eqn:Ec.
  - reflexivity.
  - destruct s as [|d s].
    + reflexivity.
    + rewrite IH by discriminate. clear IH.
      unfold lineEnd.
      destruct (IndexByte newline (String d s)) as [i|]; reflexivity.
Qed.

Lemma concatLines_rawLines (s : string) : concatLines (rawLines s) = s.
Proof.
  induction s as [|c s IH]; simpl; auto.
  destruct (Ascii.eqb c newline).
  - simpl. now rewrite IH.
  - destruct (rawLines s) as [|l ls]; simpl in *; now rewrite <- IH.
Qed.

Lemma chomp_take_lineEnd (s : string) :
  chomp (take (lineEnd s) s) =
    match IndexByte newline s with Some i => take i s | None => s end.
Proof.
  unfold chomp, lineEnd.
  destruct (IndexByte newline s) as [i|] eqn:E.
  - pose proof (IndexByte_bound _ _ _ E) as Hi.
    assert (E' : IndexByte newline (take (S i) s) = Some i).
    { clear Hi. revert i E. induction s as [|c s IH]; intros i E; [discriminate|].
      simpl in E. destruct (Ascii.eqb c newline) eqn:Ec.
      - injection E as <-. simpl. now rewrite Ec.
      - destruct (IndexByte newline s) as [j|] eqn:Ej; [|discriminate].
        injection E as <-.
        change (take (S (S j)) (String c s)) with (String c (take (S j) s)).
        cbn [IndexByte]. rewrite Ec.
        now rewrite (IH j eq_refl). }
    rewrite E'.
    rewrite <- (take_drop (S i) s) at 2.
    rewrite take_append_l; [reflexivity|].
    rewrite length_take. lia.
  - rewrite take_all by lia. now rewrite E.
Qed.

(** ** package os *)

Lemma unread_nonempty (f : os.File) :
  (0 <= os.pos f)%Z -> os.unread f <> "" -> (os.pos f < os.size f)%Z.
Proof.
  unfold os.unread, os.size. intros Hp Hu.
  destruct (Nat.le_gt_cases (String.length (os.data f)) (Z.to_nat (os.pos f)))
    as [Hle|Hlt]; [|lia].
  now rewrite drop_all in Hu by assumption.
Qed.

Lemma length_unread (f : os.File) :
  (0 <= os.pos f)%Z ->
  Z.of_nat (String.length (os.unread f)) = Z.max 0 (os.size f - os.pos f).
Proof.
  unfold os.unread, os.size. intros Hp. rewrite length_drop. lia.
Qed.

Lemma Read_spec (f : os.File) (n : nat) :
  (0 <= os.pos f)%Z -> 0 < n ->
  let '(chunk, eof, f') := os.Read f n in
  (os.unread f = "" /\ eof = true /\ chunk = "" /\ f' = f)
  \/ (os.unread f <> "" /\ eof = false /\ chunk = take n (os.unread f)
      /\ chunk <> "" /\ os.data f' = os.data f
      /\ os.pos f' = (os.pos f + Z.of_nat (String.length chunk))%Z
      /\ os.unread f' = drop (String.length chunk) (os.unread f)
      /\ (os.pos f' <= os.size f')%Z).
Proof.
  intros Hp Hn. unfold os.Read.
  destruct n as [|n]; [lia|].
  destruct (os.unread f) as [|c u] eqn:Eu.
  - left. auto.
  - right. rewrite <- Eu.
    assert (Hne : os.unread f <> "") by (rewrite Eu; discriminate).
    pose proof (unread_nonempty f Hp Hne) as Hlt.
    pose proof (length_unread f Hp) as Hlen.
    set (chunk := take (S n) (os.unread f)).
    assert (Hc : String.length chunk
                 = Nat.min (S n) (String.length (os.unread f)))
      by apply length_take.
    repeat split; auto.
    + subst chunk. rewrite Eu. simpl. discriminate.
    + unfold os.unread at 1. cbn [os.pos os.data].
      rewrite Z2Nat.inj_add by lia. rewrite Nat2Z.id.
      unfold os.unread. now rewrite drop_drop.
    + unfold os.size in *. cbn [os.pos os.data]. lia.
Qed.

(** ** package bufio *)

Lemma MaxScanTokenSize_large : 4096 < bufio.MaxScanTokenSize.
Proof. apply Nat.ltb_lt. vm_compute. reflexivity. Qed.

Lemma lineText_first (p : string) :
  lineText (take (lineEnd p) p) =
    bufio.dropCR
      match IndexByte newline p with Some i => take i p | None => p end.
Proof. unfold lineText. now rewrite chomp_take_lineEnd. Qed.

Lemma isSome_err (s : bufio.Scanner) (f : os.File) :
  scanner_ok s f ->
  (bufio.err s = None /\ bufio.isSome (bufio.err s) = false)
  \/ (bufio.err s = Some bufio.EOF /\ os.unread f = ""
      /\ String.length (bufio.pending s) < bufio.MaxScanTokenSize
      /\ bufio.isSome (bufio.err s) = true).
Proof.
  intros [_ _ _ _ [E|(E & U & L)] _ _]; rewrite E; simpl; auto.
Qed.

Ltac scanner_fields :=
  cbn [bufio.buflen bufio.start bufio.end_ bufio.pending bufio.token
       bufio.err String.length IndexByte] in *.

Ltac scanner_side :=
  scanner_fields; rewrite ?length_drop, ?length_take;
  first [ assumption | reflexivity | lia | congruence | discriminate
        | left; first [congruence | discriminate]
        | right; assumption
        | right; split; [congruence|split; [assumption|];
            rewrite ?length_drop; lia]
        | idtac ].

Lemma tryToken_spec (s : bufio.Scanner) (f : os.File) :
  scanner_ok s f ->
  match bufio.tryToken s with
  | inl (true, s') =>
      bufio.pending s <> ""
      /\ (IndexByte newline (bufio.pending s) <> None \/ os.unread f = "")
      /\ String.length
           (chomp (take (lineEnd (bufio.pending s)) (bufio.pending s)))
         < bufio.MaxScanTokenSize
      /\ bufio.token s' =
           lineText (take (lineEnd (bufio.pending s)) (bufio.pending s))
      /\ bufio.pending s' = drop (lineEnd (bufio.pending s)) (bufio.pending s)
      /\ scanner_ok s' f
  | inl (false, _) => False
  | inr s1 =>
      scanner_ok s1 f
      /\ bufio.pending s1 = bufio.pending s
      /\ bufio.err s1 = bufio.err s
      /\ IndexByte newline (bufio.pending s) = None
      /\ (bufio.err s <> None -> bufio.pending s = "")
  end.
Proof.
  intros Hok.
  destruct (isSome_err s f Hok) as [[E Ei]|(E & U & L & Ei)];
    destruct Hok as [Hlen Hst Hen Hbuf Herr Hpos Hin];
    destruct s as [bl st en p tk er]; scanner_fields;
    unfold bufio.tryToken, bufio.ScanLines; scanner_fields;
    rewrite Ei; rewrite ?lineText_first, ?chomp_take_lineEnd.
  - (* no error so far *)
    destruct (Nat.ltb_spec st en) as [Hlt|Hge]; cbn [orb andb].
    + destruct (IndexByte newline p) as [i|] eqn:Ei'.
      * pose proof (IndexByte_bound _ _ _ Ei') as Hi.
        destruct (Nat.ltb_spec (en - st) (S i)) as [Hbad|_]; [lia|].
        assert (Hp : p <> "") by (intros ->; simpl in Hi; lia).
        unfold lineEnd. rewrite Ei'.
        repeat split; scanner_side.
        intros _. apply Hin, Hp.
      * destruct (Nat.ltb_spec (en - st) 0) as [Hbad|_]; [lia|].
        change (drop 0 p) with p.
        repeat split; scanner_side.
    + assert (Hp : p = "") by (apply length_zero; lia). subst p.
      repeat split; scanner_side.
  - (* at the end of the file *)
    rewrite Bool.orb_true_r. cbn [andb].
    destruct (Nat.eqb_spec (String.length p) 0) as [Hz|Hnz].
    + apply length_zero in Hz. subst p. simpl in Hlen |- *.
      repeat split; scanner_side.
    + assert (Hp : p <> "") by (intros ->; simpl in Hnz; lia).
      destruct (IndexByte newline p) as [i|] eqn:Ei'.
      * pose proof (IndexByte_bound _ _ _ Ei') as Hi.
        destruct (Nat.ltb_spec (en - st) (S i)) as [Hbad|_]; [lia|].
        unfold lineEnd. rewrite Ei'.
        repeat split; scanner_side.
        intros _. apply Hin, Hp.
      * destruct (Nat.ltb_spec (en - st) (String.length p)) as [Hbad|_];
          [lia|].
        unfold lineEnd. rewrite Ei'.
        repeat split; scanner_side.
        rewrite drop_all by lia. congruence.
Qed.

Lemma shiftBuffer_spec (s : bufio.Scanner) (f : os.File) :
  scanner_ok s f ->
  let s' := bufio.shiftBuffer s in
  scanner_ok s' f
  /\ bufio.pending s' = bufio.pending s
  /\ bufio.err s' = bufio.err s
  /\ (bufio.end_ s' = bufio.buflen s' -> bufio.start s' = 0).
Proof.
  intros [Hlen Hst Hen Hbuf Herr Hpos Hin].
  destruct s as [bl st en p tk er]; unfold bufio.shiftBuffer; scanner_fields.
  destruct (Nat.ltb_spec 0 st) as [H0|H0];
    destruct (Nat.eqb_spec en bl) as [H1|H1];
    destruct (Nat.ltb_spec (bl / 2) st) as [H2|H2];
    cbn [andb orb]; scanner_fields;
    (split; [constructor; scanner_fields; auto; lia|]);
    repeat split; auto; lia.
Qed.

Lemma growBuffer_spec (s : bufio.Scanner) (f : os.File) :
  scanner_ok s f -> bufio.err s = None ->
  (bufio.end_ s = bufio.buflen s -> bufio.start s = 0) ->
  match bufio.growBuffer s with
  | inl s' =>
      bufio.MaxScanTokenSize <= String.length (bufio.pending s)
      /\ bufio.pending s' = bufio.pending s
  | inr s' =>
      scanner_ok s' f
      /\ bufio.pending s' = bufio.pending s
      /\ bufio.err s' = None
      /\ bufio.end_ s' < bufio.buflen s'
  end.
Proof.
  intros [Hlen Hst Hen Hbuf Herr Hpos Hin] E Hfull.
  pose proof MaxScanTokenSize_large as Hmax.
  destruct s as [bl st en p tk er]; unfold bufio.growBuffer, bufio.setErr;
    scanner_fields. subst er.
  destruct (Nat.eqb_spec en bl) as [H1|H1].
  - specialize (Hfull H1). subst st.
    destruct (Nat.leb_spec bufio.MaxScanTokenSize bl) as [H2|H2].
    + scanner_fields. split; [lia | reflexivity].
    + unfold bufio.startBufSize.
      destruct (Nat.eqb_spec (bl * 2) 0) as [H3|H3];
        [destruct (Nat.ltb_spec bufio.MaxScanTokenSize 4096) as [H4|H4]
        |destruct (Nat.ltb_spec bufio.MaxScanTokenSize (bl * 2)) as [H4|H4]];
        scanner_fields;
        (split; [constructor; scanner_fields; auto; lia|]);
        repeat split; auto; lia.
  - scanner_fields.
    (split; [constructor; scanner_fields; auto; lia|]);
    repeat split; auto; lia.
Qed.

Lemma take_drop_length (n : nat) (u : string) :
  take n u ++ drop (String.length (take n u)) u = u.
Proof.
  revert u; induction n as [|n IH]; intros [|c u]; simpl; auto.
  f_equal; apply IH.
Qed.

Lemma readInput_spec (s : bufio.Scanner) (f : os.File) :
  scanner_ok s f -> bufio.err s = None ->
  bufio.end_ s < bufio.buflen s ->
  let '(s', f') := bufio.readInput s f in
  scanner_ok s' f'
  /\ unconsumed s' f' = unconsumed s f
  /\ os.data f' = os.data f
  /\ (os.pos f <= os.pos f' <= Z.max (os.pos f) (os.size f))%Z
  /\ passesLeft s' f' < passesLeft s f.
Proof.
  intros [Hlen Hst Hen Hbuf Herr Hpos Hin] E Hroom.
  unfold bufio.readInput.
  assert (Hn : 0 < bufio.buflen s - bufio.end_ s) by lia.
  pose proof (Read_spec f (bufio.buflen s - bufio.end_ s) Hpos Hn) as HR.
  clear Hn.
  destruct (os.Read f (bufio.buflen s - bufio.end_ s)) as [[chunk eof] f'].
  destruct s as [bl st en p tk er]; scanner_fields. subst er.
  destruct HR as [(U & -> & -> & ->)|(U & -> & Hc & Hne & Hd & Hp & Hu & Hs)].
  - (* end of file *)
    unfold bufio.setErr, unconsumed, passesLeft; scanner_fields.
    rewrite U, !append_nil_r.
    repeat split; scanner_side.
  - assert (Hl : String.length chunk <= bl - en).
    { rewrite Hc, length_take. lia. }
    assert (Hpos' : 0 < String.length chunk).
    { destruct chunk; [congruence | simpl; lia]. }
    destruct (Nat.eqb_spec (String.length chunk) 0) as [Hz|_]; [lia|].
    assert (Hsz : os.size f' = os.size f) by (unfold os.size; now rewrite Hd).
    unfold unconsumed, passesLeft; scanner_fields.
    assert (Hlu : String.length chunk <= String.length (os.unread f)).
    { rewrite Hc, length_take. lia. }
    repeat split; scanner_fields; rewrite ?length_append, ?Hu, ?length_drop;
      auto; try lia.
    rewrite append_assoc. f_equal.
    rewrite Hc. apply take_drop_length.
Qed.

Lemma readMore_spec (s : bufio.Scanner) (f : os.File) :
  scanner_ok s f ->
  match bufio.readMore s f with
  | inl (true, _, _) => False
  | inl (false, s', f') =>
      f' = f
      /\ ((bufio.err s <> None /\ bufio.pending s' = "")
          \/ (bufio.MaxScanTokenSize <= String.length (bufio.pending s)
              /\ bufio.pending s' = bufio.pending s))
  | inr (s', f') =>
      scanner_ok s' f'
      /\ unconsumed s' f' = unconsumed s f
      /\ os.data f' = os.data f
      /\ (os.pos f <= os.pos f' <= Z.max (os.pos f) (os.size f))%Z
      /\ passesLeft s' f' < passesLeft s f
  end.
Proof.
  intros Hok. unfold bufio.readMore.
  destruct (isSome_err s f Hok) as [[E Ei]|(E & U & L & Ei)]; rewrite Ei.
  - destruct (shiftBuffer_spec s f Hok) as (Hok2 & Hp2 & He2 & Hfull).
    rewrite E in He2.
    pose proof (growBuffer_spec _ f Hok2 He2 Hfull) as HG.
    destruct (bufio.growBuffer (bufio.shiftBuffer s)) as [s'|s3].
    + destruct HG as [Hlong Hp]. rewrite Hp2 in *. auto.
    + destruct HG as (Hok3 & Hp3 & He3 & Hroom).
      pose proof (readInput_spec s3 f Hok3 He3 Hroom) as HR.
      destruct (bufio.readInput s3 f) as [s' f'].
      destruct HR as (Hok' & Hu & Hd & Hpos & Hm).
      split; [exact Hok'|]. split; [|split; [exact Hd|split; [exact Hpos|]]].
      * rewrite Hu. unfold unconsumed. now rewrite Hp3, Hp2.
      * unfold passesLeft in *. rewrite He3 in Hm. rewrite E. exact Hm.
  - split; [reflexivity|]. left. scanner_fields. split; congruence.
Qed.

Lemma first_line_in_buffer (p u : string) :
  p <> "" -> IndexByte newline p <> None \/ u = "" ->
  lineEnd (p ++ u) = lineEnd p
  /\ take (lineEnd p) (p ++ u) = take (lineEnd p) p
  /\ drop (lineEnd p) (p ++ u) = drop (lineEnd p) p ++ u.
Proof.
  intros Hp [Hi| ->].
  - destruct (IndexByte newline p) as [i|] eqn:E; [|congruence].
    pose proof (IndexByte_bound _ _ _ E) as Hb.
    unfold lineEnd. rewrite (IndexByte_append_l _ _ u _ E), E.
    repeat split.
    + apply take_append_l; lia.
    + apply drop_append_l; lia.
  - rewrite !append_nil_r. auto.
Qed.

Lemma long_line_in_buffer (p u : string) :
  IndexByte newline p = None ->
  String.length p <= String.length (chomp (take (lineEnd (p ++ u)) (p ++ u))).
Proof.
  intros Hp. rewrite chomp_take_lineEnd.
  rewrite (IndexByte_append_r _ _ u Hp).
  destruct (IndexByte newline u) as [j|] eqn:E; simpl.
  - pose proof (IndexByte_bound _ _ _ E).
    rewrite length_take, length_append. lia.
  - rewrite length_append. lia.
Qed.

Lemma Scan_pass_spec (s : bufio.Scanner) (f : os.File) :
  scanner_ok s f ->
  match bufio.Scan_pass s f with
  | inl (more, s', f') => scanned s f more s' f'
  | inr (s', f') =>
      scanner_ok s' f'
      /\ unconsumed s' f' = unconsumed s f
      /\ os.data f' = os.data f
      /\ (os.pos f <= os.pos f' <= Z.max (os.pos f) (os.size f))%Z
      /\ passesLeft s' f' < passesLeft s f
  end.
Proof.
  intros Hok. unfold bufio.Scan_pass.
  pose proof (tryToken_spec s f Hok) as HT.
  destruct (bufio.tryToken s) as [[[|] s']|s1].
  - destruct HT as (Hp & Hnl & Hshort & Htok & Hpend & Hok').
    destruct (first_line_in_buffer _ (os.unread f) Hp Hnl) as (He & Ht & Hd).
    unfold scanned, unconsumed. rewrite He, Ht, Hd, Hpend.
    split; [reflexivity|]. split; [lia|].
    split; [|split; [exact Hshort
                    |split; [exact Htok|split; [reflexivity|exact Hok']]]].
    destruct (bufio.pending s); [congruence | discriminate].
  - contradiction.
  - destruct HT as (Hok1 & Hp1 & He1 & Hnl & Hempty).
    pose proof (readMore_spec s1 f Hok1) as HR.
    destruct (bufio.readMore s1 f) as [[[[|] s'] f']|[s' f']].
    + contradiction.
    + destruct HR as [-> HR]. unfold scanned, unconsumed.
      repeat split; try lia.
      * destruct HR as [[He Hp']|[Hlong Hp']]; rewrite Hp'.
        -- rewrite He1 in He. now rewrite (Hempty He).
        -- now rewrite Hp1.
      * destruct HR as [[He Hp']|[Hlong Hp']].
        -- left. rewrite He1 in He. rewrite (Hempty He). simpl.
           destruct (isSome_err s f Hok) as [[E _]|(_ & U & _)];
             [congruence | exact U].
        -- right. rewrite Hp1 in Hlong.
           pose proof (long_line_in_buffer _ (os.unread f) Hnl). lia.
    + destruct HR as (Hok' & Hu & Hd & Hpos & Hm).
      split; [exact Hok'|]. split; [|split; [exact Hd|split; [exact Hpos|]]].
      * rewrite Hu. unfold unconsumed. now rewrite Hp1.
      * unfold passesLeft in *. now rewrite <- He1.
Qed.

Lemma Scan_loop_spec (fuel : nat) :
  forall s f,
    scanner_ok s f -> passesLeft s f < fuel ->
    exists more s' f',
      bufio.Scan_loop fuel s f = Some (more, s', f') /\ scanned s f more s' f'.
Proof.
  induction fuel as [|fuel IH]; intros s f Hok Hfuel; [lia|].
  simpl. pose proof (Scan_pass_spec s f Hok) as HP.
  destruct (bufio.Scan_pass s f) as [[[more s'] f']|[s' f']].
  - exists more, s', f'. auto.
  - destruct HP as (Hok' & Hu & Hd & Hpos & Hm).
    assert (Hfuel' : passesLeft s' f' < fuel) by lia.
    destruct (IH s' f' Hok' Hfuel') as (more & s'' & f'' & Hrun & Hsc).
    exists more, s'', f''. split; [exact Hrun|].
    unfold scanned in *. rewrite Hu in Hsc.
    assert (Hsz : os.size f' = os.size f) by (unfold os.size; now rewrite Hd).
    destruct Hsc as (Hd'' & Hpos'' & Hrest).
    split; [congruence|]. split; [lia | exact Hrest].
Qed.

Lemma Scan_spec (s : bufio.Scanner) (f : os.File) :
  scanner_ok s f ->
  let '(more, s', f') := bufio.Scan s f in scanned s f more s' f'.
Proof.
  intros Hok. unfold bufio.Scan.
  assert (Hfuel : passesLeft s f < String.length (os.unread f) + 2)
    by (unfold passesLeft; destruct (bufio.err s); lia).
  destruct (Scan_loop_spec _ s f Hok Hfuel) as (more & s' & f' & Hrun & Hsc).
  now rewrite Hrun.
Qed.

(** ** The loop of logScan, line by line *)

Lemma Seek_end (f : os.File) :
  os.Seek f 0 2 = (os.mkFile (os.data f) (os.size f), os.size f, None).
Proof.
  unfold os.Seek. change (2 =? 0)%Z with false. change (2 =? 1)%Z with false.
  cbv iota zeta. rewrite Z.add_0_r.
  assert (H : (os.size f <? 0)%Z = false)
    by (apply Z.ltb_ge; unfold os.size; lia).
  now rewrite H.
Qed.

Lemma scanLine_cases (now : string) (lfi : LogForwardInfo) (st : scanState)
    (text : string) :
  scanLine now lfi st text =
    if isSentinel lfi text then
      Ret (mkScanState (logFile st) (scanner st) (sentinelsLeft st - 1)
             (bytesWritten st) (logSinkChannel st))
    else if (String.length text =? 0)%nat then
      Panic "runtime error: slice bounds out of range"
    else
      let bytes' :=
        wrap64 (bytesWritten st + Z.of_nat (String.length text)) in
      let sent1 :=
        (logSinkChannel st
           ++ [mungedLine text (EncodedLogLineMetadata lfi)])%list in
      if (SizeLimit lfi <? bytes')%Z then
        Ret (mkScanState (os.mkFile (os.data (logFile st))
                            (os.size (logFile st)))
               (scanner st) 0 bytes'
               (sent1 ++ [syntheticLogLine now
                            (truncatedLogMessage (SizeLimit lfi))
                            (EncodedLogLineMetadata lfi)])%list)
      else
        Ret (mkScanState (logFile st) (scanner st) (sentinelsLeft st)
               bytes' sent1).
Proof.
  unfold scanLine, isSentinel, writeSyntheticLogLine.
  destruct (SentinelledLogs lfi && strings.Contains text logSentinelLine);
    [reflexivity|].
  destruct (Nat.eqb_spec (String.length text) 0) as [Hz|Hnz].
  - rewrite Hz. reflexivity.
  - assert (H : (Z.of_nat (String.length text) - 1 <? 0)%Z = false)
      by (apply Z.ltb_ge; lia).
    rewrite H. cbv zeta. rewrite Seek_end. reflexivity.
Qed.

Lemma unconsumed_inside (s : bufio.Scanner) (f : os.File) :
  scanner_ok s f -> unconsumed s f <> "" -> (os.pos f <= os.size f)%Z.
Proof.
  intros Hok Hu. destruct (string_dec (bufio.pending s) "") as [Hp|Hp].
  - unfold unconsumed in Hu. rewrite Hp in Hu. simpl in Hu.
    pose proof (unread_nonempty f (ok_pos _ _ Hok) Hu). lia.
  - exact (ok_inside _ _ Hok Hp).
Qed.

Lemma scanLoop_forward (now : string) (lfi : LogForwardInfo) (fuel : nat) :
  forall st,
    scanner_ok (scanner st) (logFile st) ->
    String.length (unconsumed (scanner st) (logFile st)) < fuel ->
    match Lines.forward now lfi
            (rawLines (unconsumed (scanner st) (logFile st)))
            (Lines.acc_of st) with
    | Lines.Crashed msg sentBefore =>
        scanLoop fuel now lfi st = Some (Panicked msg sentBefore)
    | Lines.Stopped a truncated rest =>
        exists st',
          scanLoop fuel now lfi st = Some (Finished st')
          /\ finishedAs st st' a truncated rest
    end.
Proof.
  induction fuel as [|fuel IH]; intros st Hok Hfuel; [lia|].
  cbn [scanLoop].
  pose proof (Scan_spec _ _ Hok) as HS.
  destruct (bufio.Scan (scanner st) (logFile st)) as [[more sc] f].
  unfold scanned in HS. cbv zeta in HS.
  pose proof (unconsumed_inside _ _ Hok) as Hin.
  remember (unconsumed (scanner st) (logFile st)) as u eqn:Eu.
  destruct HS as (Hd & Hpos & HS).
  destruct (string_dec u "") as [Hu|Hu].
  - (* nothing left to scan *)
    rewrite Hu. cbn [rawLines Lines.forward].
    destruct (0 <? sentinelsLeft st)%Z.
    + destruct more; [destruct HS as [HS _]; congruence|].
      destruct HS as [HS _].
      eexists; split; [reflexivity|].
      unfold finishedAs; cbn [logFile scanner]. rewrite HS, Hu.
      repeat split; auto; lia.
    + exists st; split; [reflexivity|].
      unfold finishedAs. rewrite <- Eu, Hu. repeat split; auto; lia.
  - (* a first line and the rest *)
    rewrite (rawLines_step u Hu). cbn [Lines.forward].
    unfold Lines.acc_of at 1. cbn [Lines.left].
    assert (Hall : concatLines
                     (take (lineEnd u) u :: rawLines (drop (lineEnd u) u)) = u).
    { cbn [concatLines]. rewrite concatLines_rawLines. apply take_drop. }
    destruct (0 <? sentinelsLeft st)%Z eqn:Hleft; cbn [negb].
    2:{ exists st; split; [reflexivity|].
        unfold finishedAs. rewrite <- Eu, Hall. repeat split; auto; lia. }
    specialize (Hin Hu).
    destruct more.
    2:{ (* the scanner gives up on a long line *)
        destruct HS as [HS [Hno|Hlong]]; [congruence|].
        apply Nat.leb_le in Hlong. rewrite Hlong.
        eexists; split; [reflexivity|].
        unfold finishedAs; cbn [logFile scanner]. rewrite HS, Hall.
        repeat split; auto; lia. }
    destruct HS as (_ & Hshort & Htok & Hrest & Hok').
    apply Nat.leb_gt in Hshort. rewrite Hshort.
    unfold bufio.Text. rewrite Htok, scanLine_cases.
    cbn [logFile scanner sentinelsLeft bytesWritten logSinkChannel].
    set (text := lineText (take (lineEnd u) u)).
    assert (Hless : String.length (drop (lineEnd u) u) < fuel).
    { rewrite length_drop. pose proof (lineEnd_pos u Hu). lia. }
    assert (Hsz : os.size f = os.size (logFile st))
      by (unfold os.size; now rewrite Hd).
    destruct (isSentinel lfi text).
    + (* a sentinel *)
      match goal with |- context [scanLoop fuel now lfi ?s] =>
        set (st2 := s) end.
      specialize (IH st2 Hok'). cbn [st2 logFile scanner] in IH.
      rewrite Hrest in IH. specialize (IH Hless).
      unfold Lines.acc_of in IH at 1. 
      cbn [st2 logFile scanner sentinelsLeft bytesWritten logSinkChannel] in IH.
      unfold Lines.acc_of. cbn [Lines.sentSoFar Lines.left Lines.bytes].
      destruct (Lines.forward now lfi (rawLines (drop (lineEnd u) u)) _)
        as [a tr rest|msg sb]; [|exact IH].
      destruct IH as (st' & Hrun & Hacc & Hd' & Hpos' & Hfin).
      exists st'; split; [exact Hrun|].
      unfold finishedAs. cbn [st2 logFile] in *.
      rewrite Hsz in *.
      repeat split; try congruence; try lia.
      all: try (destruct tr; [congruence | exact Hfin]).
    + destruct (String.length text =? 0)%nat; [reflexivity|].
      cbv zeta.
      unfold Lines.acc_of. cbn [Lines.sentSoFar Lines.left Lines.bytes].
      destruct (SizeLimit lfi <? _)%Z.
      * (* the size limit is exceeded *)
        destruct fuel as [|fuel]; [lia|]. cbn [scanLoop sentinelsLeft].
        change (0 <? 0)%Z with false. cbv iota.
        eexists; split; [reflexivity|].
        unfold finishedAs, Lines.acc_of.
        cbn [logFile scanner sentinelsLeft bytesWritten logSinkChannel
             os.data os.pos].
        rewrite Hsz. repeat split; auto; lia.
      * (* a content line within the limit *)
        match goal with |- context [scanLoop fuel now lfi ?s] =>
          set (st2 := s) end.
        specialize (IH st2 Hok'). cbn [st2 logFile scanner] in IH.
        rewrite Hrest in IH. specialize (IH Hless).
        unfold Lines.acc_of in IH at 1. 
        cbn [st2 logFile scanner sentinelsLeft bytesWritten logSinkChannel]
          in IH.
        destruct (Lines.forward now lfi (rawLines (drop (lineEnd u) u)) _)
          as [a tr rest|msg sb]; [|exact IH].
        destruct IH as (st' & Hrun & Hacc & Hd' & Hpos' & Hfin).
        exists st'; split; [exact Hrun|].
        unfold finishedAs. cbn [st2 logFile] in *.
        rewrite Hsz in *.
        repeat split; try congruence; try lia.
        all: try (destruct tr; [congruence | exact Hfin]).
Qed.

(** ** logScan and the line-by-line scan *)

Lemma Seek_start (data : string) (offset : Z) :
  (0 <= offset)%Z ->
  os.Seek (os.mkFile data 0) offset 0 = (os.mkFile data offset, offset, None).
Proof.
  intros H. unfold os.Seek. change (0 =? 0)%Z with true. cbv iota zeta.
  rewrite Z.add_0_l.
  assert (E : (offset <? 0)%Z = false) by (apply Z.ltb_ge; lia).
  now rewrite E.
Qed.

Lemma Seek_current (f : os.File) :
  (0 <= os.pos f)%Z ->
  os.Seek f 0 1 = (os.mkFile (os.data f) (os.pos f), os.pos f, None).
Proof.
  intros H. unfold os.Seek. change (1 =? 0)%Z with false.
  change (1 =? 1)%Z with true. cbv iota zeta. rewrite Z.add_0_r.
  assert (E : (os.pos f <? 0)%Z = false) by (apply Z.ltb_ge; lia).
  now rewrite E.
Qed.

Lemma NewScanner_ok (f : os.File) :
  (0 <= os.pos f)%Z -> scanner_ok bufio.NewScanner f.
Proof.
  intros H. constructor; simpl; auto; try lia. congruence.
Qed.

(** The result of [logScan] on a file that opens, in terms of the
    line-by-line scan of its region. *)
Theorem logScan_lines (cfg : Config) (fs : os.FileSystem) (now : string)
    (chan : list string) (container : string) (lfi : LogForwardInfo)
    (data : string) :
  fs (containerLog cfg container) = os.Opened data ->
  (0 <= LastOffset lfi)%Z ->
  match Lines.scan now lfi chan data with
  | Lines.Crashed msg sentBefore =>
      logScan cfg fs now chan container lfi
      = mkScanResult sentBefore (Panic msg)
  | Lines.Stopped a truncated rest =>
      if SentinelledLogs lfi && negb (Lines.left a =? 0)%Z then
        logScan cfg fs now chan container lfi
        = mkScanResult (Lines.sentSoFar a)
            (Ret (0%Z, Some "Failed to find expected sentinels in log file"))
      else
        exists r,
          logScan cfg fs now chan container lfi
          = mkScanResult (Lines.sentSoFar a ++ [EncodedActivation lfi])%list
              (Ret (r, None))
          /\ (LastOffset lfi <= r
              <= Z.max (LastOffset lfi) (Z.of_nat (String.length data)))%Z
          /\ (Lines.resumeOffset data lfi truncated rest <= r)%Z
          /\ (truncated = true -> r = Z.of_nat (String.length data))
  end.
Proof.
  intros Hfs Hoff. unfold logScan, os.Open. rewrite Hfs.
  cbv zeta. rewrite (Seek_start data _ Hoff).
  rewrite Z.eqb_refl. cbn [negb orb bufio.isSome].
  set (f0 := os.mkFile data (LastOffset lfi)).
  set (st0 := mkScanState f0 bufio.NewScanner 2 0 chan).
  assert (Hok : scanner_ok (scanner st0) (logFile st0))
    by (apply NewScanner_ok; exact Hoff).
  assert (Hu : unconsumed (scanner st0) (logFile st0) = Lines.region data lfi)
    by reflexivity.
  pose proof (scanLoop_forward now lfi (String.length (os.unread f0) + 1)
                st0 Hok) as HL.
  rewrite Hu in HL. unfold Lines.scan.
  change (Lines.acc_of st0) with (Lines.mkAcc chan 2 0) in HL.
  assert (Hfuel : String.length (Lines.region data lfi)
                  < String.length (os.unread f0) + 1).
  { change (os.unread f0) with (Lines.region data lfi). lia. }
  specialize (HL Hfuel).
  destruct (Lines.forward now lfi (rawLines (Lines.region data lfi))
              (Lines.mkAcc chan 2 0)) as [a tr rest|msg sb].
  - destruct HL as (st' & Hrun & Hacc & Hd & Hpos & Hfin).
    rewrite Hrun. subst a. unfold Lines.acc_of.
    cbn [Lines.left Lines.sentSoFar].
    destruct (SentinelledLogs lfi && negb (sentinelsLeft st' =? 0)%Z);
      [reflexivity|].
    cbn [logFile os.pos os.data st0 f0] in Hpos, Hd.
    change (os.size f0) with (Z.of_nat (String.length data)) in Hpos.
    change (os.size (logFile st0)) with (Z.of_nat (String.length data))
      in Hfin.
    rewrite Seek_current by lia.
    exists (os.pos (logFile st')). split; [reflexivity|].
    split; [lia|].
    unfold Lines.resumeOffset.
    destruct tr.
    + split; [lia|auto].
    + split; [|discriminate].
      unfold Lines.consumedEnd. rewrite <- Hfin.
      unfold unconsumed. rewrite length_append.
      assert (Hp' : (0 <= os.pos (logFile st'))%Z) by lia.
      pose proof (length_unread (logFile st') Hp') as Hl'.
      assert (Hl0 : Z.of_nat (String.length (Lines.region data lfi))
                    = Z.max 0 (Z.of_nat (String.length data) - LastOffset lfi)).
      { unfold Lines.region. rewrite length_drop. lia. }
      unfold os.size in Hl'. rewrite Hd in Hl'.
      lia.
  - rewrite HL. reflexivity.
Qed.

(** ** Lines that pass through the loop *)

Lemma wrap64_small (z : Z) : (0 <= z < 2 ^ 63)%Z -> wrap64 z = z.
Proof.
  intros H. unfold wrap64.
  rewrite Z.mod_small; lia.
Qed.

Lemma forward_app (now : string) (lfi : LogForwardInfo) (pre : list string) :
  forall (rest : list string) (a : Lines.acc),
    Forall scannable pre ->
    (Z.of_nat (sentinelCount lfi pre) < Lines.left a)%Z ->
    (0 <= Lines.bytes a)%Z ->
    (Lines.bytes a + contentBytes lfi pre <= SizeLimit lfi)%Z ->
    (Lines.bytes a + contentBytes lfi pre < 2 ^ 63)%Z ->
    Lines.forward now lfi (pre ++ rest) a
    = Lines.forward now lfi rest (after lfi pre a).
Proof.
  induction pre as [|raw pre IH]; intros rest a Hall Hleft Hb Hlim Hmax.
  - destruct a as [sent l b]. unfold after, mungedLines, contentBytes,
      contentLines, sentinelCount. cbn.
    now rewrite app_nil_r, Z.sub_0_r, Z.add_0_r.
  - inversion Hall as [|? ? [Hshort Hne] Hall']; subst.
    cbn [app Lines.forward].
    assert (Hpos : (0 <? Lines.left a)%Z = true) by (apply Z.ltb_lt; lia).
    rewrite Hpos. cbn [negb].
    apply Nat.leb_gt in Hshort. rewrite Hshort.
    unfold sentinelCount, contentBytes, contentLines in Hleft, Hlim, Hmax.
    cbn [map filter] in Hleft, Hlim, Hmax.
    unfold after, mungedLines, contentBytes, contentLines, sentinelCount.
    cbn [map filter].
    destruct (isSentinel lfi (lineText raw)) eqn:Hs; cbn [negb] in *.
    + cbn [List.length] in Hleft.
      rewrite IH; auto; cbn [Lines.left Lines.bytes Lines.sentSoFar];
        try (unfold sentinelCount; lia).
      unfold after, mungedLines, contentBytes, contentLines, sentinelCount.
      cbn [Lines.left Lines.bytes Lines.sentSoFar List.length].
      do 2 f_equal. lia.
    + cbn [map list_sum fold_right] in Hlim, Hmax.
      change (fold_right Nat.add 0 ?l) with (list_sum l) in Hlim, Hmax.
      destruct (Nat.eqb_spec (String.length (lineText raw)) 0) as [Hz|_];
        [apply length_zero in Hz; congruence|].
      cbv zeta.
      set (rest_sum := list_sum (map String.length
             (filter (fun t => negb (isSentinel lfi t)) (map lineText pre))))
        in *.
      rewrite wrap64_small by lia.
      assert (Hnot : (SizeLimit lfi
                      <? Lines.bytes a
                         + Z.of_nat (String.length (lineText raw)))%Z = false)
        by (apply Z.ltb_ge; lia).
      rewrite Hnot.
      rewrite IH; auto; cbn [Lines.left Lines.bytes Lines.sentSoFar];
        try (unfold sentinelCount, contentBytes, contentLines;
             fold rest_sum; lia).
      unfold after, mungedLines, contentBytes, contentLines, sentinelCount.
      cbn [Lines.left Lines.bytes Lines.sentSoFar map list_sum fold_right].
      change (fold_right Nat.add 0 ?l) with (list_sum l).
      fold rest_sum. rewrite <- app_assoc. cbn [app].
      do 2 f_equal. lia.
Qed.

(** ** Claims about the loop body *)

Lemma Contains_refl (s : string) : strings.Contains s s = true.
Proof.
  assert (H : String.prefix s s = true).
  { induction s as [|c s IH]; simpl; auto.
    destruct (ascii_dec c c); [exact IH | congruence]. }
  destruct s; simpl in *; [reflexivity | now rewrite H].
Qed.

Lemma app_cons_not_self {A : Type} (l : list A) (x : A) (more : list A) :
  (l ++ x :: more)%list <> l.
Proof.
  intros H. apply (f_equal (@List.length A)) in H.
  rewrite length_app in H. simpl in H. lia.
Qed.

(** C1, as the code has it: in sentinel mode the loop body takes a
    line for a sentinel exactly when the line contains the marker
    text; a line equal to the marker is one such line; every
    non-empty line that does not contain the marker is forwarded as
    content. *)
Theorem C1_sentinel_by_containment (now : string) (lfi : LogForwardInfo)
    (st : scanState) (logLine : string) :
  SentinelledLogs lfi = true ->
  (consumedAsSentinel now lfi st logLine
   <-> strings.Contains logLine logSentinelLine = true)
  /\ (logLine = logSentinelLine -> consumedAsSentinel now lfi st logLine)
  /\ (strings.Contains logLine logSentinelLine = false ->
      logLine <> "" -> forwardedAsContent now lfi st logLine).
Proof.
  intros Hmode.
  assert (Hyes : strings.Contains logLine logSentinelLine = true ->
                 consumedAsSentinel now lfi st logLine).
  { intros Hc. unfold consumedAsSentinel. rewrite scanLine_cases.
    unfold isSentinel. now rewrite Hmode, Hc. }
  split; [split; [|exact Hyes]|split].
  - unfold consumedAsSentinel. rewrite scanLine_cases. unfold isSentinel.
    rewrite Hmode. cbn [andb].
    destruct (strings.Contains logLine logSentinelLine); [reflexivity|].
    destruct (String.length logLine =? 0)%nat; [discriminate|].
    cbv zeta. intros H.
    assert (Hch := f_equal (fun o => match o with
                                     | Ret s => logSinkChannel s
                                     | Panic _ => []
                                     end) H).
    destruct (SizeLimit lfi <? _)%Z; cbn [logSinkChannel] in Hch.
    + rewrite <- app_assoc in Hch. now apply app_cons_not_self in Hch.
    + now apply app_cons_not_self in Hch.
  - intros ->. apply Hyes, Contains_refl.
  - intros Hc Hne. unfold forwardedAsContent. rewrite scanLine_cases.
    unfold isSentinel. rewrite Hc, Bool.andb_false_r.
    destruct (Nat.eqb_spec (String.length logLine) 0) as [Hz|_];
      [apply length_zero in Hz; congruence|].
    cbv zeta. destruct (SizeLimit lfi <? _)%Z.
    + eexists. eexists. split; [reflexivity|].
      cbn [logSinkChannel sentinelsLeft]. rewrite <- app_assoc.
      split; [reflexivity | now right].
    + eexists. exists []. split; [reflexivity|].
      cbn [logSinkChannel sentinelsLeft]. split; [reflexivity | now left].
Qed.

Lemma C1_sentinel_by_containment_witness :
  SentinelledLogs scenarioCursor = true
  /\ (consumedAsSentinel "T" scenarioCursor sampleState dockerSentinel
   <-> strings.Contains dockerSentinel logSentinelLine = true)
  /\ (dockerSentinel = logSentinelLine ->
      consumedAsSentinel "T" scenarioCursor sampleState dockerSentinel)
  /\ (strings.Contains dockerSentinel logSentinelLine = false ->
      dockerSentinel <> "" ->
      forwardedAsContent "T" scenarioCursor sampleState dockerSentinel).
Proof.
  split; [reflexivity|].
  apply (C1_sentinel_by_containment "T" scenarioCursor sampleState
           dockerSentinel).
  reflexivity.
Defined.

(** C1 as stated fails: a line of Docker's json-file format that
    carries the marker is taken for a sentinel although it is not
    equal to the marker text. *)
Lemma C1_counterexample :
  ~ (consumedAsSentinel "T" scenarioCursor sampleState dockerSentinel
     <-> dockerSentinel = logSentinelLine).
Proof.
  intros [H _].
  assert (Hc : consumedAsSentinel "T" scenarioCursor sampleState
                 dockerSentinel) by reflexivity.
  specialize (H Hc). discriminate H.
Qed.

(** ** Claims about single scans and requests *)

(** C2: the concrete scenario.  Whatever the configuration, the
    container and the lines sent before, the scan of the scenario's
    file with the scenario's cursor sends the two content lines, each
    ending in the metadata and a closing brace, then the activation
    record, and returns the length of the file as the resume offset. *)
Theorem C2_concrete_scenario (cfg : Config) (fs : os.FileSystem)
    (now : string) (chan : list string) (container : string) :
  fs (containerLog cfg container) = os.Opened scenarioFile ->
  logScan cfg fs now chan container scenarioCursor
  = mkScanResult (chan ++ scenarioSent)%list
      (Ret (Z.of_nat (String.length scenarioFile), None)).
Proof.
  intros Hfs. unfold logScan, os.Open. rewrite Hfs.
  cbv -[app]. now rewrite <- !app_assoc.
Qed.

Lemma C2_concrete_scenario_witness :
  oneLog scenarioFile (containerLog sampleConfig "c1") = os.Opened scenarioFile
  /\ logScan sampleConfig (oneLog scenarioFile) "T" [] "c1" scenarioCursor
     = mkScanResult ([] ++ scenarioSent)%list
         (Ret (Z.of_nat (String.length scenarioFile), None)).
Proof.
  split; [reflexivity|].
  apply (C2_concrete_scenario sampleConfig (oneLog scenarioFile) "T" [] "c1").
  reflexivity.
Defined.

(** C6: when the container's log file cannot be opened, or the seek
    to [LastOffset] fails or reaches another offset, [logScan] returns
    an error, has sent nothing, and the handler answers with status
    500 and the error message instead of an offset. *)
Theorem C6_open_or_seek_failure (cfg : Config) (fs : os.FileSystem)
    (now now' : string) (chan : list string) (container : string)
    (lfi : LogForwardInfo) :
  (exists reason, fs (containerLog cfg container) = os.OpenFailed reason)
  \/ (exists data,
        fs (containerLog cfg container) = os.Opened data
        /\ let '(_, offset, e) :=
             os.Seek (os.mkFile data 0) (LastOffset lfi) 0 in
           offset <> LastOffset lfi \/ e <> None) ->
  exists msg,
    logScan cfg fs now chan container lfi
    = mkScanResult chan (Ret (0%Z, Some msg))
    /\ response (forwardParsed cfg fs now now' chan container lfi)
       = Ret (mkResponse 500 msg).
Proof.
  intros [[reason Hfs]|[data [Hfs Hseek]]].
  - eexists. unfold forwardParsed, logScan, os.Open. rewrite Hfs.
    split; reflexivity.
  - unfold forwardParsed, logScan, os.Open. rewrite Hfs. cbv zeta.
    destruct (os.Seek (os.mkFile data 0) (LastOffset lfi) 0)
      as [[f offset] e].
    assert (Hbad : negb (offset =? LastOffset lfi)%Z || bufio.isSome e = true).
    { destruct Hseek as [Hne|Hne].
      - apply Z.eqb_neq in Hne. now rewrite Hne.
      - destruct e; [apply Bool.orb_true_r | congruence]. }
    rewrite Hbad. eexists. split; reflexivity.
Qed.

Lemma C6_open_or_seek_failure_witness :
  (exists msg,
     logScan sampleConfig (oneLog scenarioFile) "T" [] "c2" scenarioCursor
     = mkScanResult [] (Ret (0%Z, Some msg))
     /\ response (forwardParsed sampleConfig (oneLog scenarioFile) "T" "T" []
                    "c2" scenarioCursor)
        = Ret (mkResponse 500 msg))
  /\ (exists msg,
        logScan sampleConfig (oneLog scenarioFile) "T" [] "c1"
          (resumeAt scenarioCursor (-1))
        = mkScanResult [] (Ret (0%Z, Some msg))
        /\ response (forwardParsed sampleConfig (oneLog scenarioFile) "T" "T"
                       [] "c1" (resumeAt scenarioCursor (-1)))
           = Ret (mkResponse 500 msg)).
Proof.
  split.
  - apply (C6_open_or_seek_failure sampleConfig (oneLog scenarioFile) "T" "T"
             [] "c2" scenarioCursor).
    left. eexists. reflexivity.
  - apply (C6_open_or_seek_failure sampleConfig (oneLog scenarioFile) "T" "T"
             [] "c1" (resumeAt scenarioCursor (-1))).
    right. exists scenarioFile. split; [reflexivity|].
    simpl. left. discriminate.
Defined.

(** C10: [parseLogForwardInfo] hands [json.Unmarshal] a nil pointer,
    so it returns an error for every request body; the handler
    answers every request with status 400, sends nothing to the sink
    and never reaches [logScan], whatever the files are. *)
Theorem C10_every_request_rejected
    (checkValid : string -> option string)
    (decode : string -> LogForwardInfo -> LogForwardInfo * option string)
    (cfg : Config) (fs : os.FileSystem) (now now' : string)
    (chan : list string) (r : Request) :
  (exists e, parseLogForwardInfo checkValid decode r = (None, Some e))
  /\ exists msg,
       ForwardLogsFromUserAction checkValid decode cfg fs now now' chan r
       = mkHandled chan (Ret (mkResponse 400 msg)).
Proof.
  unfold ForwardLogsFromUserAction, parseLogForwardInfo, Unmarshal.
  destruct (bodyError r) as [e|].
  - split; eexists; reflexivity.
  - destruct (checkValid (bodyBytes r)) as [e|];
      split; eexists; reflexivity.
Qed.

(** ** Claims about scans, by the lines of the region *)

Lemma contentLines_app (lfi : LogForwardInfo) (xs ys : list string) :
  contentLines lfi (xs ++ ys)
  = (contentLines lfi xs ++ contentLines lfi ys)%list.
Proof. unfold contentLines. now rewrite map_app, filter_app. Qed.

Lemma contentBytes_app (lfi : LogForwardInfo) (xs ys : list string) :
  contentBytes lfi (xs ++ ys)
  = (contentBytes lfi xs + contentBytes lfi ys)%Z.
Proof.
  unfold contentBytes. rewrite contentLines_app, map_app, list_sum_app. lia.
Qed.

Lemma contentBytes_cons (lfi : LogForwardInfo) (raw : string)
    (raws : list string) :
  isSentinel lfi (lineText raw) = false ->
  contentBytes lfi (raw :: raws)
  = (Z.of_nat (String.length (lineText raw)) + contentBytes lfi raws)%Z.
Proof.
  intros H. unfold contentBytes, contentLines. cbn [map filter].
  rewrite H. cbn [negb map list_sum fold_right]. 
  change (fold_right Nat.add 0 ?l) with (list_sum l). lia.
Qed.

Lemma mungedLines_snoc (lfi : LogForwardInfo) (pre : list string)
    (raw : string) :
  isSentinel lfi (lineText raw) = false ->
  mungedLines lfi (pre ++ [raw])
  = (mungedLines lfi pre
       ++ [mungedLine (lineText raw) (EncodedLogLineMetadata lfi)])%list.
Proof.
  intros H. unfold mungedLines. rewrite contentLines_app, map_app.
  unfold contentLines at 2. cbn [map filter]. now rewrite H.
Qed.

Lemma length_dropCR (s : string) :
  String.length (bufio.dropCR s) <= String.length s.
Proof.
  unfold bufio.dropCR. destruct (last_byte s) as [c|]; [|lia].
  destruct (Ascii.eqb c creturn); [|lia]. rewrite length_take. lia.
Qed.

Lemma length_lineText (raw : string) :
  String.length (lineText raw) <= String.length raw.
Proof.
  unfold lineText. pose proof (length_dropCR (chomp raw)).
  unfold chomp in *. destruct (IndexByte newline raw); [|lia].
  rewrite length_take in *. lia.
Qed.

Lemma contentBytes_le (lfi : LogForwardInfo) (raws : list string) :
  (0 <= contentBytes lfi raws
   <= Z.of_nat (String.length (concatLines raws)))%Z.
Proof.
  induction raws as [|raw raws IH].
  - unfold contentBytes. simpl. lia.
  - cbn [concatLines]. rewrite length_append.
    pose proof (length_lineText raw).
    destruct (isSentinel lfi (lineText raw)) eqn:Hs.
    + unfold contentBytes, contentLines in *. cbn [map filter].
      rewrite Hs. cbn [negb].
      lia.
    + rewrite contentBytes_cons by assumption. lia.
Qed.

Lemma contentBytes_region (lfi : LogForwardInfo) (data : string) :
  (0 <= contentBytes lfi (rawLines (Lines.region data lfi))
   <= Z.of_nat (String.length data))%Z.
Proof.
  pose proof (contentBytes_le lfi (rawLines (Lines.region data lfi))) as H.
  rewrite concatLines_rawLines in H.
  assert (String.length (Lines.region data lfi) <= String.length data)
    by (unfold Lines.region; rewrite length_drop; lia).
  lia.
Qed.

Lemma Lines_scan_through (now : string) (lfi : LogForwardInfo)
    (chan : list string) (data : string) (pre rest : list string) :
  rawLines (Lines.region data lfi) = (pre ++ rest)%list ->
  Forall scannable pre ->
  sentinelCount lfi pre < 2 ->
  (contentBytes lfi pre <= SizeLimit lfi)%Z ->
  (contentBytes lfi pre < 2 ^ 63)%Z ->
  Lines.scan now lfi chan data
  = Lines.forward now lfi rest (after lfi pre (Lines.mkAcc chan 2 0)).
Proof.
  intros Hraw Hall Hcount Hlim Hmax. unfold Lines.scan. rewrite Hraw.
  apply forward_app; cbn [Lines.left Lines.bytes]; auto; lia.
Qed.

Lemma contentBytes_prefix (lfi : LogForwardInfo) (data : string)
    (pre rest : list string) :
  rawLines (Lines.region data lfi) = (pre ++ rest)%list ->
  (0 <= contentBytes lfi pre <= Z.of_nat (String.length data))%Z.
Proof.
  intros Hraw. pose proof (contentBytes_region lfi data) as H.
  rewrite Hraw, contentBytes_app in H.
  pose proof (contentBytes_le lfi pre). pose proof (contentBytes_le lfi rest).
  lia.
Qed.

(** C3, as the code has it: a sentinel-mode scan of a region with
    fewer than two lines that contain the marker, whose lines are all
    non-empty and shorter than the scanner's buffer limit and whose
    content stays within the size limit, fails for the missing
    sentinels and returns no offset; by then every content line of
    the region has been forwarded, and the handler sends the error
    notice (when metadata was given) and then the activation record
    before it answers with status 500. *)
Theorem C3_missing_sentinels (cfg : Config) (fs : os.FileSystem)
    (now now' : string) (chan : list string) (container : string)
    (lfi : LogForwardInfo) (data : string) :
  fs (containerLog cfg container) = os.Opened data ->
  (0 <= LastOffset lfi)%Z ->
  SentinelledLogs lfi = true ->
  sentinelCount lfi (rawLines (Lines.region data lfi)) < 2 ->
  Forall scannable (rawLines (Lines.region data lfi)) ->
  (contentBytes lfi (rawLines (Lines.region data lfi)) <= SizeLimit lfi)%Z ->
  (Z.of_nat (String.length data) < 2 ^ 63)%Z ->
  let forwarded :=
    (chan ++ mungedLines lfi (rawLines (Lines.region data lfi)))%list in
  let failure := "Failed to find expected sentinels in log file" in
  logScan cfg fs now chan container lfi
  = mkScanResult forwarded (Ret (0%Z, Some failure))
  /\ forwardParsed cfg fs now now' chan container lfi
     = mkHandled
         ((if String.eqb (EncodedLogLineMetadata lfi) "" then forwarded
           else forwarded
                  ++ [syntheticLogLine now' genericLogErrorMessage
                        (EncodedLogLineMetadata lfi)])
            ++ [EncodedActivation lfi])%list
         (Ret (mkResponse 500 failure)).
Proof.
  intros Hfs Hoff Hmode Hcount Hall Hlim Hsize forwarded failure.
  pose proof (contentBytes_region lfi data) as Hmax.
  assert (Hscan : logScan cfg fs now chan container lfi
                  = mkScanResult forwarded (Ret (0%Z, Some failure))).
  { pose proof (logScan_lines cfg fs now chan container lfi data Hfs Hoff)
      as HL.
    rewrite (Lines_scan_through now lfi chan data
               (rawLines (Lines.region data lfi)) []) in HL;
      auto; try lia; [|now rewrite app_nil_r].
    cbn [Lines.forward after Lines.left Lines.sentSoFar] in HL.
    rewrite Hmode in HL.
    assert (Hleft : (2 - Z.of_nat (sentinelCount lfi
                           (rawLines (Lines.region data lfi))) =? 0)%Z = false)
      by (apply Z.eqb_neq; lia).
    rewrite Hleft in HL. exact HL. }
  split; [exact Hscan|].
  unfold forwardParsed. rewrite Hscan.
  cbn [returned sent]. unfold reportLoggingError, writeSyntheticLogLine.
  reflexivity.
Qed.

Ltac scannable_lines :=
  repeat (constructor;
          [split; [apply Nat.ltb_lt; vm_compute; reflexivity | discriminate]|]);
  try constructor.

Lemma C3_missing_sentinels_witness :
  logScan sampleConfig (oneLog oneSentinelFile) "T" [] "c1" scenarioCursor
  = mkScanResult
      ([] ++ mungedLines scenarioCursor
               (rawLines (Lines.region oneSentinelFile scenarioCursor)))%list
      (Ret (0%Z, Some "Failed to find expected sentinels in log file"))
  /\ sentByHandler
       (forwardParsed sampleConfig (oneLog oneSentinelFile) "T" "U" [] "c1"
          scenarioCursor)
     = [js "{'a':1,'foo':'bar'}"; js "{'a':2,'foo':'bar'}";
        syntheticLogLine "U" genericLogErrorMessage (js "'foo':'bar'");
        "ACT1"].
Proof.
  destruct (C3_missing_sentinels sampleConfig (oneLog oneSentinelFile)
              "T" "U" [] "c1" scenarioCursor oneSentinelFile) as [H1 H2].
  - reflexivity.
  - simpl; lia.
  - reflexivity.
  - apply Nat.ltb_lt. vm_compute. reflexivity.
  - vm_compute rawLines. scannable_lines.
  - apply Z.leb_le. vm_compute. reflexivity.
  - apply Z.ltb_lt. vm_compute. reflexivity.
  - split; [exact H1|]. rewrite H2. vm_compute. reflexivity.
Defined.

(** C3 as stated fails: a sentinel-mode scan of a region without any
    sentinel succeeds, with a resume offset, once the size limit is
    exceeded. *)
Lemma C3_counterexample :
  SentinelledLogs tightCursor = true
  /\ sentinelCount tightCursor
       (rawLines (Lines.region noSentinelFile tightCursor)) = 0
  /\ logScan sampleConfig (oneLog noSentinelFile) "T" [] "c1" tightCursor
     = mkScanResult
         [js "{'a':1,'foo':'bar'}";
          syntheticLogLine "T" (truncatedLogMessage 3) (js "'foo':'bar'");
          "ACT1"]
         (Ret (Z.of_nat (String.length noSentinelFile), None))
  /\ ~ (exists offset e,
          returned (logScan sampleConfig (oneLog noSentinelFile) "T" []
                      "c1" tightCursor)
          = Ret (offset, Some e)).
Proof.
  assert (H : logScan sampleConfig (oneLog noSentinelFile) "T" [] "c1"
                tightCursor
              = mkScanResult
                  [js "{'a':1,'foo':'bar'}";
                   syntheticLogLine "T" (truncatedLogMessage 3)
                     (js "'foo':'bar'");
                   "ACT1"]
                  (Ret (Z.of_nat (String.length noSentinelFile), None)))
    by (vm_compute; reflexivity).
  split; [reflexivity|]. split; [reflexivity|]. split; [exact H|].
  rewrite H. intros (offset & e & He). discriminate He.
Qed.

(** C4, as the code has it: when the lines of the region up to line
    k are non-empty and shorter than the scanner's buffer limit, hold
    fewer than two sentinels, and line k is the content line at which
    the cumulative content length first exceeds the size limit L, the
    scan forwards the content lines among lines 1 to k, then sends
    one truncation notice that names L, then the activation record,
    and returns the length of the file as the resume offset. *)
Theorem C4_truncation (cfg : Config) (fs : os.FileSystem) (now : string)
    (chan : list string) (container : string) (lfi : LogForwardInfo)
    (data : string) (pre : list string) (raw : string) (post : list string) :
  fs (containerLog cfg container) = os.Opened data ->
  (0 <= LastOffset lfi)%Z ->
  (Z.of_nat (String.length data) < 2 ^ 63)%Z ->
  rawLines (Lines.region data lfi) = (pre ++ raw :: post)%list ->
  Forall scannable (pre ++ [raw]) ->
  sentinelCount lfi pre < 2 ->
  isSentinel lfi (lineText raw) = false ->
  (contentBytes lfi pre <= SizeLimit lfi
   < contentBytes lfi pre + Z.of_nat (String.length (lineText raw)))%Z ->
  logScan cfg fs now chan container lfi
  = mkScanResult
      (chan ++ mungedLines lfi (pre ++ [raw])
         ++ [syntheticLogLine now (truncatedLogMessage (SizeLimit lfi))
               (EncodedLogLineMetadata lfi);
             EncodedActivation lfi])%list
      (Ret (Z.of_nat (String.length data), None)).
Proof.
  intros Hfs Hoff Hsize Hraw Hall Hcount Hcontent [Hlim Hover].
  apply Forall_app in Hall. destruct Hall as [Hpre Hk].
  inversion Hk as [|? ? [Hshort Hne] _]; subst.
  pose proof (contentBytes_region lfi data) as Hsum.
  rewrite Hraw, contentBytes_app, contentBytes_cons in Hsum by assumption.
  pose proof (contentBytes_le lfi pre) as Hpre0.
  pose proof (contentBytes_le lfi post) as Hpost0.
  pose proof (logScan_lines cfg fs now chan container lfi data Hfs Hoff) as HL.
  rewrite (Lines_scan_through now lfi chan data pre (raw :: post)) in HL;
    auto; try lia.
  cbn [Lines.forward after Lines.left Lines.sentSoFar Lines.bytes] in HL.
  assert (Hleft : (0 <? 2 - Z.of_nat (sentinelCount lfi pre))%Z = true)
    by (apply Z.ltb_lt; lia).
  rewrite Hleft in HL. cbn [negb] in HL.
  apply Nat.leb_gt in Hshort. rewrite Hshort, Hcontent in HL.
  destruct (Nat.eqb_spec (String.length (lineText raw)) 0) as [Hz|_];
    [apply length_zero in Hz; congruence|].
  cbv zeta in HL. rewrite wrap64_small in HL by lia.
  assert (Hcut : (SizeLimit lfi
                  <? 0 + contentBytes lfi pre
                     + Z.of_nat (String.length (lineText raw)))%Z = true)
    by (apply Z.ltb_lt; lia).
  rewrite Hcut in HL. cbn [Lines.left Lines.sentSoFar] in HL.
  rewrite Bool.andb_false_r in HL.
  destruct HL as (r & Hscan & _ & _ & Hr).
  rewrite Hscan, (Hr eq_refl), mungedLines_snoc by assumption.
  f_equal. rewrite <- !app_assoc. reflexivity.
Qed.

Lemma C4_truncation_witness :
  logScan sampleConfig (oneLog noSentinelFile) "T" [] "c1" tenByteCursor
  = mkScanResult
      [js "{'a':1,'foo':'bar'}"; js "{'a':2,'foo':'bar'}";
       syntheticLogLine "T" (truncatedLogMessage 10) (js "'foo':'bar'");
       "ACT1"]
      (Ret (Z.of_nat (String.length noSentinelFile), None)).
Proof.
  rewrite (C4_truncation sampleConfig (oneLog noSentinelFile) "T" [] "c1"
             tenByteCursor noSentinelFile
             [js "{'a':1}" ++ nl] (js "{'a':2}" ++ nl) []).
  - vm_compute. reflexivity.
  - reflexivity.
  - simpl; lia.
  - apply Z.ltb_lt. vm_compute. reflexivity.
  - vm_compute. reflexivity.
  - scannable_lines.
  - apply Nat.ltb_lt. vm_compute. reflexivity.
  - reflexivity.
  - split; [apply Z.leb_le | apply Z.ltb_lt]; vm_compute; reflexivity.
Defined.

(** C4 as stated fails: in sentinel mode the content of this region
    exceeds the size limit at its first content line, but two
    sentinels come first and end the scan; no content line is
    forwarded and no truncation notice is sent. *)
Lemma C4_counterexample :
  (SizeLimit tightCursor
   < contentBytes tightCursor
       (rawLines (Lines.region sentinelsFirstFile tightCursor)))%Z
  /\ logScan sampleConfig (oneLog sentinelsFirstFile) "T" [] "c1" tightCursor
     = mkScanResult ["ACT1"]
         (Ret (Z.of_nat (String.length sentinelsFirstFile), None))
  /\ ~ In (syntheticLogLine "T" (truncatedLogMessage 3) (js "'foo':'bar'"))
         (sent (logScan sampleConfig (oneLog sentinelsFirstFile) "T" [] "c1"
                  tightCursor)).
Proof.
  assert (H : logScan sampleConfig (oneLog sentinelsFirstFile) "T" [] "c1"
                tightCursor
              = mkScanResult ["ACT1"]
                  (Ret (Z.of_nat (String.length sentinelsFirstFile), None)))
    by (vm_compute; reflexivity).
  split; [apply Z.ltb_lt; vm_compute; reflexivity|].
  split; [exact H|].
  rewrite H. cbn [sent In]. intros [Hin|[]]. discriminate Hin.
Qed.

Lemma dropCR_empty (s : string) :
  bufio.dropCR s = "" -> String.length s <= 1.
Proof.
  unfold bufio.dropCR. destruct (last_byte s) as [c|] eqn:El.
  - destruct (Ascii.eqb c creturn).
    + intros H. apply (f_equal String.length) in H.
      rewrite length_take in H. simpl in H. lia.
    + intros ->. simpl. lia.
  - intros ->. simpl. lia.
Qed.

Lemma empty_line_short (raw : string) :
  lineText raw = "" -> String.length (chomp raw) < bufio.MaxScanTokenSize.
Proof.
  intros H. apply dropCR_empty in H.
  pose proof MaxScanTokenSize_large. lia.
Qed.

Lemma Contains_empty (substr : string) :
  substr <> "" -> strings.Contains "" substr = false.
Proof. destruct substr; [congruence | reflexivity]. Qed.

Lemma forward_no_crash (now : string) (lfi : LogForwardInfo)
    (ls : list string) :
  Forall (fun raw => lineText raw <> "") ls ->
  forall a msg sentBefore,
    Lines.forward now lfi ls a <> Lines.Crashed msg sentBefore.
Proof.
  induction 1 as [|raw ls Hne _ IH]; intros a msg sb; cbn [Lines.forward];
    [discriminate|].
  destruct (negb (0 <? Lines.left a)%Z); [discriminate|].
  destruct (bufio.MaxScanTokenSize <=? String.length (chomp raw))%nat;
    [discriminate|].
  destruct (isSentinel lfi (lineText raw)); [apply IH|].
  destruct (Nat.eqb_spec (String.length (lineText raw)) 0) as [Hz|_];
    [apply length_zero in Hz; congruence|].
  cbv zeta. destruct (SizeLimit lfi <? _)%Z; [discriminate | apply IH].
Qed.

(** C9: the loop body panics on the empty line and on no other
    line.  A scan of a file that opens panics, after forwarding the
    content before it, once it reaches an empty line; and no scan of
    a region whose lines are all non-empty panics. *)
Theorem C9_empty_line_panics (cfg : Config) (fs : os.FileSystem)
    (now : string) (chan : list string) (container : string)
    (lfi : LogForwardInfo) (data : string) :
  fs (containerLog cfg container) = os.Opened data ->
  (0 <= LastOffset lfi)%Z ->
  (forall st,
      scanLine now lfi st ""
      = Panic "runtime error: slice bounds out of range")
  /\ (forall st logLine,
         logLine <> "" -> exists st', scanLine now lfi st logLine = Ret st')
  /\ (forall pre raw post,
         rawLines (Lines.region data lfi) = (pre ++ raw :: post)%list ->
         lineText raw = "" ->
         Forall scannable pre ->
         sentinelCount lfi pre < 2 ->
         (contentBytes lfi pre <= SizeLimit lfi)%Z ->
         (Z.of_nat (String.length data) < 2 ^ 63)%Z ->
         logScan cfg fs now chan container lfi
         = mkScanResult (chan ++ mungedLines lfi pre)%list
             (Panic "runtime error: slice bounds out of range"))
  /\ (Forall (fun raw => lineText raw <> "")
        (rawLines (Lines.region data lfi)) ->
      forall msg,
        returned (logScan cfg fs now chan container lfi) <> Panic msg).
Proof.
  intros Hfs Hoff.
  assert (Hempty : isSentinel lfi "" = false).
  { unfold isSentinel. rewrite Contains_empty by discriminate.
    apply Bool.andb_false_r. }
  pose proof (logScan_lines cfg fs now chan container lfi data Hfs Hoff) as HL.
  split; [|split; [|split]].
  - intros st. rewrite scanLine_cases, Hempty. reflexivity.
  - intros st logLine Hne. rewrite scanLine_cases.
    destruct (isSentinel lfi logLine); [eexists; reflexivity|].
    destruct (Nat.eqb_spec (String.length logLine) 0) as [Hz|_];
      [apply length_zero in Hz; congruence|].
    cbv zeta. destruct (SizeLimit lfi <? _)%Z; eexists; reflexivity.
  - intros pre raw post Hraw Htext Hpre Hcount Hlim Hsize.
    pose proof (contentBytes_prefix lfi data pre _ Hraw) as Hmax.
    rewrite (Lines_scan_through now lfi chan data pre (raw :: post)) in HL;
      auto; try lia.
    cbn [Lines.forward after Lines.left Lines.sentSoFar Lines.bytes] in HL.
    assert (Hleft : (0 <? 2 - Z.of_nat (sentinelCount lfi pre))%Z = true)
      by (apply Z.ltb_lt; lia).
    rewrite Hleft in HL. cbn [negb] in HL.
    pose proof (empty_line_short raw Htext) as Hshort.
    apply Nat.leb_gt in Hshort. rewrite Hshort, Htext, Hempty in HL.
    exact HL.
  - intros Hall msg.
    destruct (Lines.scan now lfi chan data) as [a tr rest|m sb] eqn:Hscan.
    + destruct (SentinelledLogs lfi && negb (Lines.left a =? 0)%Z).
      * rewrite HL. discriminate.
      * destruct HL as (r & HL & _). rewrite HL. discriminate.
    + exfalso. exact (forward_no_crash now lfi _ Hall _ _ _ Hscan).
Qed.

Lemma C9_empty_line_panics_witness :
  logScan sampleConfig (oneLog emptyLineFile) "T" [] "c1" tenByteCursor
  = mkScanResult [js "{'a':1,'foo':'bar'}"]
      (Panic "runtime error: slice bounds out of range")
  /\ forall msg,
       returned (logScan sampleConfig (oneLog scenarioFile) "T" [] "c1"
                   scenarioCursor)
       <> Panic msg.
Proof.
  split.
  - destruct (C9_empty_line_panics sampleConfig (oneLog emptyLineFile) "T" []
                "c1" tenByteCursor emptyLineFile) as (_ & _ & H & _).
    + reflexivity.
    + simpl; lia.
    + rewrite (H [js "{'a':1}" ++ nl] nl [js "{'a':2}" ++ nl]).
      * reflexivity.
      * vm_compute. reflexivity.
      * reflexivity.
      * scannable_lines.
      * apply Nat.ltb_lt. vm_compute. reflexivity.
      * apply Z.leb_le. vm_compute. reflexivity.
      * apply Z.ltb_lt. vm_compute. reflexivity.
  - destruct (C9_empty_line_panics sampleConfig (oneLog scenarioFile) "T" []
                "c1" scenarioCursor scenarioFile) as (_ & _ & _ & H).
    + reflexivity.
    + simpl; lia.
    + apply H. vm_compute rawLines.
      repeat (constructor; [discriminate|]). constructor.
Defined.

(** ** Claims about the resume offset *)

(** A successful scan: what was scanned, and where its resume offset
    lies. *)
Lemma successful_scan (cfg : Config) (fs : os.FileSystem) (now : string)
    (chan : list string) (container : string) (lfi : LogForwardInfo)
    (r : Z) :
  returned (logScan cfg fs now chan container lfi) = Ret (r, None) ->
  (0 <= LastOffset lfi <= r)%Z
  /\ exists data a truncated rest,
       fs (containerLog cfg container) = os.Opened data
       /\ Lines.scan now lfi chan data = Lines.Stopped a truncated rest
       /\ (Lines.resumeOffset data lfi truncated rest <= r
           <= Z.max (LastOffset lfi) (Z.of_nat (String.length data)))%Z
       /\ (truncated = true -> r = Z.of_nat (String.length data)).
Proof.
  intros Hret.
  destruct (fs (containerLog cfg container)) as [data|reason] eqn:Hfs.
  2:{ unfold logScan, os.Open in Hret. rewrite Hfs in Hret. discriminate. }
  destruct (Z.ltb_spec (LastOffset lfi) 0) as [Hneg|Hoff].
  { unfold logScan, os.Open in Hret. rewrite Hfs in Hret. cbv zeta in Hret.
    unfold os.Seek in Hret. change (0 =? 0)%Z with true in Hret.
    cbv iota zeta in Hret. rewrite Z.add_0_l in Hret.
    apply Z.ltb_lt in Hneg. rewrite Hneg in Hret.
    assert (Hne : (0 =? LastOffset lfi)%Z = false)
      by (apply Z.eqb_neq; apply Z.ltb_lt in Hneg; lia).
    rewrite Hne in Hret. discriminate. }
  pose proof (logScan_lines cfg fs now chan container lfi data Hfs Hoff) as HL.
  destruct (Lines.scan now lfi chan data) as [a tr rest|m sb] eqn:Hscan.
  - destruct (SentinelledLogs lfi && negb (Lines.left a =? 0)%Z).
    + rewrite HL in Hret. discriminate.
    + destruct HL as (r' & HL & Hbounds & Hline & Htr).
      rewrite HL in Hret. injection Hret as <-.
      split; [lia|]. exists data, a, tr, rest.
      split; [reflexivity|]. split; [exact Hscan|].
      split; [lia | exact Htr].
  - rewrite HL in Hret. discriminate.
Qed.




Lemma scan_at_end (cfg : Config) (fs : os.FileSystem) (now : string)
    (chan : list string) (container : string) (lfi : LogForwardInfo)
    (data : string) :
  fs (containerLog cfg container) = os.Opened data ->
  (Z.of_nat (String.length data) <= LastOffset lfi)%Z ->
  logScan cfg fs now chan container lfi
  = if SentinelledLogs lfi
    then mkScanResult chan
           (Ret (0%Z, Some "Failed to find expected sentinels in log file"))
    else mkScanResult (chan ++ [EncodedActivation lfi])%list
           (Ret (LastOffset lfi, None)).
Proof.
  intros Hfs Hend.
  assert (Hoff : (0 <= LastOffset lfi)%Z) by lia.
  pose proof (logScan_lines cfg fs now chan container lfi data Hfs Hoff) as HL.
  unfold Lines.scan in HL.
  assert (Hregion : Lines.region data lfi = "")
    by (unfold Lines.region; apply drop_all; lia).
  rewrite Hregion in HL.
  cbn [rawLines Lines.forward Lines.left Lines.sentSoFar] in HL.
  change (negb (2 =? 0)%Z) with true in HL. rewrite Bool.andb_true_r in HL.
  destruct (SentinelledLogs lfi); [exact HL|].
  destruct HL as (r & HL & Hbounds & _). rewrite HL.
  do 3 f_equal. lia.
Qed.

(** C8, as the code has it: resumption forwards nothing anew when
    the first scan left no line of the file unconsumed.  If the first
    scan succeeds with resume offset r after a truncation, or after
    consuming every line up to the end of the file, then r is at or
    past the end of the file, and a second scan from r of the
    unchanged file sends no content line: it sends nothing in
    sentinel mode, and only the activation record otherwise. *)
Theorem C8_resumption_at_end (cfg : Config) (fs : os.FileSystem)
    (now now2 : string) (chan chan2 : list string) (container : string)
    (lfi : LogForwardInfo) (data : string) (r : Z)
    (a : Lines.acc) (truncated : bool) (rest : list string) :
  fs (containerLog cfg container) = os.Opened data ->
  returned (logScan cfg fs now chan container lfi) = Ret (r, None) ->
  Lines.scan now lfi chan data = Lines.Stopped a truncated rest ->
  truncated = true \/ rest = [] ->
  (Z.of_nat (String.length data) <= r)%Z
  /\ (sent (logScan cfg fs now2 chan2 container (resumeAt lfi r)) = chan2
      \/ sent (logScan cfg fs now2 chan2 container (resumeAt lfi r))
         = (chan2 ++ [EncodedActivation lfi])%list).
Proof.
  intros Hfs Hret Hscan Hall.
  destruct (successful_scan cfg fs now chan container lfi r Hret)
    as (Hge & data' & a' & tr' & rest' & Hfs' & Hscan' & Hbounds & Htr).
  rewrite Hfs in Hfs'. injection Hfs' as <-.
  rewrite Hscan in Hscan'. injection Hscan' as <- <- <-.
  assert (Hend : (Z.of_nat (String.length data) <= r)%Z).
  { destruct Hall as [->| ->]; [rewrite (Htr eq_refl); lia|].
    destruct truncated; [rewrite (Htr eq_refl); lia|].
    unfold Lines.resumeOffset, Lines.consumedEnd, Lines.region in Hbounds.
    cbn [concatLines String.length] in Hbounds.
    rewrite length_drop in Hbounds. lia. }
  split; [exact Hend|].
  rewrite (scan_at_end cfg fs now2 chan2 container (resumeAt lfi r) data Hfs)
    by exact Hend.
  cbn [resumeAt SentinelledLogs EncodedActivation].
  destruct (SentinelledLogs lfi); [left | right]; reflexivity.
Qed.

Lemma C8_resumption_at_end_witness :
  (Z.of_nat (String.length scenarioFile) <= 92)%Z
  /\ (sent (logScan sampleConfig (oneLog scenarioFile) "U" [] "c1"
              (resumeAt scenarioCursor 92)) = []
      \/ sent (logScan sampleConfig (oneLog scenarioFile) "U" [] "c1"
                 (resumeAt scenarioCursor 92))
         = ([] ++ [EncodedActivation scenarioCursor])%list).
Proof.
  eapply (C8_resumption_at_end sampleConfig (oneLog scenarioFile) "T" "U"
            [] [] "c1" scenarioCursor scenarioFile 92).
  - reflexivity.
  - vm_compute. reflexivity.
  - vm_compute. reflexivity.
  - right. reflexivity.
Defined.

(** C8 as stated fails: the first scan of this file stops at the two
    sentinels and returns 4096, the offset up to which the scanner
    has read; the second scan, from 4096 of the unchanged file,
    forwards the content lines that follow. *)
Lemma C8_counterexample :
  returned (logScan sampleConfig (oneLog longLog) "T" [] "c1" longCursor)
  = Ret (4096%Z, None)
  /\ In (js "{'a':1,'foo':'bar'}")
       (sent (logScan sampleConfig (oneLog longLog) "T" [] "c1"
                (resumeAt longCursor 4096))).
Proof.
  split; [vm_compute; reflexivity|].
  vm_compute. right. left. reflexivity.
Qed.

(** ** Claims about the sink writer *)

Lemma fmt_d_inj (a b : Z) : fmt.d a = fmt.d b -> a = b.
Proof.
  unfold fmt.d. intros H.
  assert (Hnn : forall z, Z.to_int z <> Decimal.Pos Decimal.Nil
                          /\ Z.to_int z <> Decimal.Neg Decimal.Nil).
  { intros [|p|p]; simpl; split; try discriminate;
      intros [= Hp]; exact (DecimalPos.Unsigned.to_uint_nonnil p Hp). }
  apply (f_equal NilZero.int_of_string) in H.
  rewrite !NilZero.isi in H by apply Hnn.
  injection H as H. now apply DecimalZ.to_int_inj.
Qed.

Lemma append_cancel_l (a x y : string) : a ++ x = a ++ y -> x = y.
Proof. induction a as [|c a IH]; simpl; [auto | intros [= H]; auto]. Qed.

Lemma append_cancel_r (x y s : string) : x ++ s = y ++ s -> x = y.
Proof.
  intros H.
  assert (Hl : String.length x = String.length y).
  { apply (f_equal String.length) in H. rewrite !length_append in H. lia. }
  apply (f_equal (take (String.length x))) in H.
  rewrite take_append_l, take_all in H by lia.
  rewrite Hl, take_append_l, take_all in H by lia. exact H.
Qed.

Lemma sinkFileName_inj (cfg : Config) (n1 n2 : Z) :
  sinkFileName cfg n1 = sinkFileName cfg n2
  <-> Z.quot n1 1000000 = Z.quot n2 1000000.
Proof.
  unfold sinkFileName. split; [|now intros ->].
  intros H. apply append_cancel_l, append_cancel_l, append_cancel_r in H.
  now apply fmt_d_inj.
Qed.

Lemma writeFile_same (d : Disk) (name contents : string) :
  writeFile d name contents name = Some contents.
Proof. unfold writeFile. now rewrite String.eqb_refl. Qed.

Lemma writeFile_other (d : Disk) (name contents other : string) :
  other <> name -> writeFile d name contents other = d other.
Proof.
  intros H. unfold writeFile. apply String.eqb_neq in H. now rewrite H.
Qed.

(** C7, as the code has it: a pass of the writer that meets no I/O
    error writes to the open file, or, if none is open, to a file it
    creates empty under the name of the current millisecond with the
    counter reset to zero; it appends the line and a line terminator
    there and leaves the other files alone, adds the bytes written to
    the counter, and keeps the file open unless the counter then
    exceeds the rotation threshold, in which case no file is open
    afterwards and the next pass creates one.  The names of two
    created files differ exactly when their millisecond timestamps
    differ. *)
Theorem C7_sink_writer_pass (cfg : Config) (st : sinkState) (i : sinkInput) :
  createError i = None ->
  writeError i = None ->
  exists st',
    logWriter_pass cfg st i = Ret st'
    /\ disk st' (sinkTarget cfg st i)
       = Some (sinkContentsBefore st ++ line i ++ nl)
    /\ (forall other,
           other <> sinkTarget cfg st i -> disk st' other = disk st other)
    /\ sinkFileBytes st'
       = wrap64 (sinkBytesBefore st + Z.of_nat (String.length (line i) + 1))
    /\ sinkFile st'
       = (if (LogSinkSize cfg <? sinkFileBytes st')%Z then None
          else Some (sinkTarget cfg st i))
    /\ (forall i',
           sinkFile st' = None ->
           sinkTarget cfg st' i' = sinkFileName cfg (unixNano i')
           /\ sinkBytesBefore st' = 0%Z
           /\ sinkContentsBefore st' = "")
    /\ (forall n1 n2,
           sinkFileName cfg n1 <> sinkFileName cfg n2
           <-> Z.quot n1 1000000 <> Z.quot n2 1000000).
Proof.
  intros Hc Hw. unfold logWriter_pass. rewrite Hc, Hw.
  unfold sinkTarget, sinkBytesBefore, sinkContentsBefore.
  destruct (sinkFile st) as [fname|] eqn:Hopen.
  - destruct (LogSinkSize cfg <? _)%Z eqn:Hrot;
      eexists; (split; [reflexivity|]); cbn [disk sinkFileBytes sinkFile];
      rewrite ?Hrot;
      (split; [apply writeFile_same|]);
      (split; [intros other Hne; now apply writeFile_other|]);
      (split; [reflexivity|]); (split; [reflexivity|]);
      (split; [|intros n1 n2; now rewrite sinkFileName_inj]);
      intros i' Hnone; try discriminate.
    repeat split; auto.
  - rewrite writeFile_same.
    destruct (LogSinkSize cfg <? _)%Z eqn:Hrot;
      eexists; (split; [reflexivity|]); cbn [disk sinkFileBytes sinkFile];
      rewrite ?Hrot;
      (split; [apply writeFile_same|]);
      (split; [intros other Hne; unfold writeFile at 1;
               apply String.eqb_neq in Hne; rewrite Hne;
               apply writeFile_other; now apply String.eqb_neq|]);
      (split; [reflexivity|]); (split; [reflexivity|]);
      (split; [|intros n1 n2; now rewrite sinkFileName_inj]);
      intros i' Hnone; try discriminate.
    repeat split; auto.
Qed.

Lemma C7_sink_writer_pass_witness :
  exists st',
    logWriter_pass eagerConfig sinkStart firstInput = Ret st'
    /\ disk st' (sinkTarget eagerConfig sinkStart firstInput)
       = Some (sinkContentsBefore sinkStart ++ line firstInput ++ nl)
    /\ (forall other,
           other <> sinkTarget eagerConfig sinkStart firstInput ->
           disk st' other = disk sinkStart other)
    /\ sinkFileBytes st'
       = wrap64 (sinkBytesBefore sinkStart
                 + Z.of_nat (String.length (line firstInput) + 1))
    /\ sinkFile st'
       = (if (LogSinkSize eagerConfig <? sinkFileBytes st')%Z then None
          else Some (sinkTarget eagerConfig sinkStart firstInput))
    /\ (forall i',
           sinkFile st' = None ->
           sinkTarget eagerConfig st' i'
           = sinkFileName eagerConfig (unixNano i')
           /\ sinkBytesBefore st' = 0%Z
           /\ sinkContentsBefore st' = "")
    /\ (forall n1 n2,
           sinkFileName eagerConfig n1 <> sinkFileName eagerConfig n2
           <-> Z.quot n1 1000000 <> Z.quot n2 1000000).
Proof.
  apply (C7_sink_writer_pass eagerConfig sinkStart firstInput);
    reflexivity.
Defined.

(** C7 as stated fails: with a rotation threshold of zero the writer
    closes its file after the first line; the second line arrives in
    the same millisecond, so the file created for it has the name of
    the previous one, and that file's first line is gone. *)
Lemma C7_counterexample :
  match logWriter_pass eagerConfig sinkStart firstInput with
  | Ret st1 =>
      sinkFile st1 = None
      /\ disk st1 (sinkTarget eagerConfig sinkStart firstInput)
         = Some ("first" ++ nl)
      /\ sinkTarget eagerConfig st1 secondInput
         = sinkTarget eagerConfig sinkStart firstInput
  | Panic _ => False
  end
  /\ match logWriter eagerConfig sinkStart [firstInput; secondInput] with
     | Ret st2 =>
         disk st2 (sinkTarget eagerConfig sinkStart firstInput)
         = Some ("second" ++ nl)
     | Panic _ => False
     end.
Proof. vm_compute. repeat split; reflexivity. Qed.


(** * Further properties of the code *)

(** ** Scans to the end of the file *)

Lemma no_sentinels (lfi : LogForwardInfo) (raws : list string) :
  SentinelledLogs lfi = false ->
  sentinelCount lfi raws = 0
  /\ mungedLines lfi raws = allMunged lfi raws.
Proof.
  intros Hmode.
  assert (Hno : forall t, isSentinel lfi t = false)
    by (intros t; unfold isSentinel; now rewrite Hmode).
  unfold sentinelCount, mungedLines, allMunged, contentLines.
  induction raws as [|raw raws [IH1 IH2]]; [split; reflexivity|].
  cbn [map filter]. rewrite Hno. cbn [negb map]. split; [exact IH1|].
  now rewrite IH2.
Qed.

Lemma region_end (data : string) (lfi : LogForwardInfo) :
  (0 <= LastOffset lfi)%Z ->
  (LastOffset lfi + Z.of_nat (String.length (Lines.region data lfi))
   = Z.max (LastOffset lfi) (Z.of_nat (String.length data)))%Z.
Proof.
  intros H. unfold Lines.region. rewrite length_drop. lia.
Qed.

(** A scan without sentinels that nothing cuts short. *)
Lemma scan_through_file (cfg : Config) (fs : os.FileSystem)
    (now : string) (chan : list string) (container : string)
    (lfi : LogForwardInfo) (data : string) :
  fs (containerLog cfg container) = os.Opened data ->
  (0 <= LastOffset lfi <= Z.of_nat (String.length data))%Z ->
  (Z.of_nat (String.length data) < 2 ^ 63)%Z ->
  SentinelledLogs lfi = false ->
  Forall scannable (rawLines (Lines.region data lfi)) ->
  (contentBytes lfi (rawLines (Lines.region data lfi)) <= SizeLimit lfi)%Z ->
  logScan cfg fs now chan container lfi
  = mkScanResult
      (chan ++ allMunged lfi (rawLines (Lines.region data lfi))
         ++ [EncodedActivation lfi])%list
      (Ret (Z.of_nat (String.length data), None)).
Proof.
  intros Hfs [Hoff Hin] Hsize Hmode Hall Hlim.
  destruct (no_sentinels lfi (rawLines (Lines.region data lfi)) Hmode)
    as [Hcount Hmunged].
  pose proof (contentBytes_region lfi data) as Hmax.
  pose proof (logScan_lines cfg fs now chan container lfi data Hfs Hoff) as HL.
  rewrite (Lines_scan_through now lfi chan data
             (rawLines (Lines.region data lfi)) []) in HL;
    auto; try lia; [|now rewrite app_nil_r].
  cbn [Lines.forward after Lines.left Lines.sentSoFar] in HL.
  rewrite Hmode in HL. cbn [andb] in HL.
  destruct HL as (r & HL & Hbounds & Hline & _).
  unfold Lines.resumeOffset, Lines.consumedEnd in Hline.
  cbn [concatLines String.length] in Hline.
  pose proof (region_end data lfi Hoff) as Hend.
  rewrite HL, Hmunged, <- app_assoc. do 3 f_equal. lia.
Qed.

(** X1: a scan without sentinels over a region whose lines are all
    non-empty and shorter than the scanner's limit, and whose content
    stays within the size limit, forwards every line of the region
    once and in order, each with the metadata, then sends the
    activation record, and returns the end of the file as the resume
    offset. *)
Theorem scan_to_end_without_sentinels (cfg : Config) (fs : os.FileSystem)
    (now : string) (chan : list string) (container : string)
    (lfi : LogForwardInfo) (data : string) :
  fs (containerLog cfg container) = os.Opened data ->
  (0 <= LastOffset lfi <= Z.of_nat (String.length data))%Z ->
  (Z.of_nat (String.length data) < 2 ^ 63)%Z ->
  SentinelledLogs lfi = false ->
  Forall scannable (rawLines (Lines.region data lfi)) ->
  (contentBytes lfi (rawLines (Lines.region data lfi)) <= SizeLimit lfi)%Z ->
  logScan cfg fs now chan container lfi
  = mkScanResult
      (chan ++ allMunged lfi (rawLines (Lines.region data lfi))
         ++ [EncodedActivation lfi])%list
      (Ret (Z.of_nat (String.length data), None)).
Proof. exact (scan_through_file cfg fs now chan container lfi data). Qed.

Lemma scan_to_end_without_sentinels_witness :
  logScan sampleConfig (oneLog noSentinelFile) "T" [] "c1"
    secondHalfCursor
  = mkScanResult [js "{'a':2,'foo':'bar'}"; "ACT1"] (Ret (16%Z, None)).
Proof.
  rewrite (scan_to_end_without_sentinels sampleConfig (oneLog noSentinelFile)
             "T" [] "c1"
             secondHalfCursor
             noSentinelFile).
  - vm_compute. reflexivity.
  - reflexivity.
  - split; [apply Z.leb_le | apply Z.leb_le]; vm_compute; reflexivity.
  - apply Z.ltb_lt. vm_compute. reflexivity.
  - reflexivity.
  - vm_compute rawLines. scannable_lines.
  - apply Z.leb_le. vm_compute. reflexivity.
Defined.

Lemma length_concatLines_app (xs ys : list string) :
  String.length (concatLines (xs ++ ys))
  = String.length (concatLines xs) + String.length (concatLines ys).
Proof.
  induction xs as [|x xs IH]; [reflexivity|].
  cbn [app concatLines]. rewrite !length_append, IH. lia.
Qed.

(** X2: in sentinel mode, when the region holds a first sentinel
    among the lines [pre], then a second sentinel, and the content
    before them stays within the size limit, the scan succeeds: it
    forwards the content lines before the second sentinel and
    neither sentinel, then sends the activation record, forwards
    nothing of what follows, and returns an offset at or after the
    end of the second sentinel and within the file. *)
Theorem sentinels_end_the_scan (cfg : Config) (fs : os.FileSystem)
    (now : string) (chan : list string) (container : string)
    (lfi : LogForwardInfo) (data : string)
    (pre : list string) (raw : string) (post : list string) :
  fs (containerLog cfg container) = os.Opened data ->
  (0 <= LastOffset lfi)%Z ->
  (Z.of_nat (String.length data) < 2 ^ 63)%Z ->
  rawLines (Lines.region data lfi) = (pre ++ raw :: post)%list ->
  Forall scannable (pre ++ [raw]) ->
  sentinelCount lfi pre = 1 ->
  isSentinel lfi (lineText raw) = true ->
  (contentBytes lfi pre <= SizeLimit lfi)%Z ->
  exists r,
    logScan cfg fs now chan container lfi
    = mkScanResult (chan ++ mungedLines lfi pre ++ [EncodedActivation lfi])%list
        (Ret (r, None))
    /\ (LastOffset lfi
        + Z.of_nat (String.length (concatLines (pre ++ [raw])))
        <= r <= Z.of_nat (String.length data))%Z.
Proof.
  intros Hfs Hoff Hsize Hraw Hall Hcount Hsent Hlim.
  apply Forall_app in Hall. destruct Hall as [Hpre Hk].
  inversion Hk as [|? ? [Hshort Hne] _]; subst.
  pose proof (contentBytes_prefix lfi data pre _ Hraw) as Hmax.
  pose proof (logScan_lines cfg fs now chan container lfi data Hfs Hoff) as HL.
  rewrite (Lines_scan_through now lfi chan data pre (raw :: post)) in HL;
    auto; try lia.
  cbn [Lines.forward after Lines.left Lines.sentSoFar Lines.bytes] in HL.
  rewrite Hcount in HL. change (0 <? 2 - Z.of_nat 1)%Z with true in HL.
  cbn [negb] in HL.
  apply Nat.leb_gt in Hshort. rewrite Hshort, Hsent in HL.
  assert (Hstop : forall a,
             Lines.left a = 0%Z ->
             Lines.forward now lfi post a = Lines.Stopped a false post).
  { intros a Ha. destruct post as [|p post]; [reflexivity|].
    cbn [Lines.forward]. now rewrite Ha. }
  rewrite Hstop in HL by reflexivity.
  cbn [Lines.left Lines.sentSoFar] in HL.
  rewrite Bool.andb_false_r in HL.
  destruct HL as (r & HL & Hbounds & Hline & _).
  exists r. rewrite HL, <- app_assoc. split; [reflexivity|].
  unfold Lines.resumeOffset, Lines.consumedEnd in Hline.
  assert (Hlen : String.length (Lines.region data lfi)
                 = String.length (concatLines (pre ++ [raw]))
                   + String.length (concatLines post)).
  { rewrite <- (concatLines_rawLines (Lines.region data lfi)), Hraw.
    change (raw :: post) with ([raw] ++ post)%list.
    now rewrite app_assoc, length_concatLines_app. }
  assert (Hsome : 0 < String.length (Lines.region data lfi)).
  { rewrite Hlen, length_concatLines_app. cbn [concatLines].
    rewrite length_append.
    destruct raw; [exfalso; apply Hne; reflexivity | simpl; lia]. }
  unfold Lines.region in Hsome, Hlen. rewrite length_drop in Hsome.
  unfold Lines.region in Hline. lia.
Qed.

Lemma sentinels_end_the_scan_witness :
  exists r,
    logScan sampleConfig (oneLog scenarioFile) "T" [] "c1" scenarioCursor
    = mkScanResult
        ([] ++ mungedLines scenarioCursor scenarioHead
            ++ [EncodedActivation scenarioCursor])%list
        (Ret (r, None))
    /\ (LastOffset scenarioCursor
        + Z.of_nat (String.length
                      (concatLines (scenarioHead ++ [logSentinelLine ++ nl])))
        <= r <= Z.of_nat (String.length scenarioFile))%Z.
Proof.
  apply (sentinels_end_the_scan sampleConfig (oneLog scenarioFile) "T" []
           "c1" scenarioCursor scenarioFile scenarioHead
           (logSentinelLine ++ nl) []).
  - reflexivity.
  - simpl; lia.
  - apply Z.ltb_lt. vm_compute. reflexivity.
  - vm_compute. reflexivity.
  - scannable_lines.
  - vm_compute. reflexivity.
  - vm_compute. reflexivity.
  - apply Z.leb_le. vm_compute. reflexivity.
Defined.

(** ** What a scan adds to the channel *)




(** ** Two scans of a growing file *)

Lemma rawLines_nonempty (s : string) : s <> "" -> rawLines s <> [].
Proof. intros H. rewrite (rawLines_step s H). discriminate. Qed.

Lemma rawLines_app (a b : string) :
  endsLines a -> rawLines (a ++ b) = (rawLines a ++ rawLines b)%list.
Proof.
  induction a as [|c a IH]; intros Hend; [reflexivity|].
  assert (Ha : a <> "" -> endsLines a).
  { intros Hne. right. destruct Hend as [Hend|Hend]; [discriminate|].
    destruct a; [congruence | exact Hend]. }
  cbn [append rawLines].
  destruct (Ascii.eqb c newline) eqn:Ec.
  - destruct (string_dec a "") as [->|Hne]; [reflexivity|].
    cbn [app]. now rewrite IH by auto.
  - destruct (string_dec a "") as [->|Hne].
    + destruct Hend as [Hend|Hend]; [discriminate|].
      cbn [last_byte] in Hend. injection Hend as ->.
      rewrite Ascii.eqb_refl in Ec. discriminate.
    + rewrite IH by auto.
      pose proof (rawLines_nonempty a Hne) as Hl.
      destruct (rawLines a); [congruence | reflexivity].
Qed.

(** X4: two scans without sentinels compose.  When the first scan
    reads a file up to its end, where a line ends, and the file then
    grows, the second scan from the returned offset forwards exactly
    the lines that were added: together the two scans forward every
    line once and in order, with the activation record after each
    scan's lines, and the lines of the two regions are the lines of
    the whole. *)
Theorem resumed_scan_forwards_the_new_lines (cfg : Config)
    (fs1 fs2 : os.FileSystem) (now now' : string) (chan : list string)
    (container : string) (lfi : LogForwardInfo) (data more : string) :
  fs1 (containerLog cfg container) = os.Opened data ->
  fs2 (containerLog cfg container) = os.Opened (data ++ more) ->
  (0 <= LastOffset lfi <= Z.of_nat (String.length data))%Z ->
  (Z.of_nat (String.length (data ++ more)) < 2 ^ 63)%Z ->
  SentinelledLogs lfi = false ->
  endsLines (Lines.region data lfi) ->
  Forall scannable (rawLines (Lines.region (data ++ more) lfi)) ->
  (contentBytes lfi (rawLines (Lines.region data lfi)) <= SizeLimit lfi)%Z ->
  (contentBytes lfi (rawLines more) <= SizeLimit lfi)%Z ->
  let first := logScan cfg fs1 now chan container lfi in
  let second :=
    logScan cfg fs2 now' (sent first) container
      (resumeAt lfi (Z.of_nat (String.length data))) in
  returned first = Ret (Z.of_nat (String.length data), None)
  /\ returned second = Ret (Z.of_nat (String.length (data ++ more)), None)
  /\ sent second
     = (chan ++ allMunged lfi (rawLines (Lines.region data lfi))
          ++ [EncodedActivation lfi]
          ++ allMunged lfi (rawLines more)
          ++ [EncodedActivation lfi])%list
  /\ rawLines (Lines.region (data ++ more) lfi)
     = (rawLines (Lines.region data lfi) ++ rawLines more)%list.
Proof.
  intros Hfs1 Hfs2 [Hoff Hin] Hsize Hmode Hend Hall Hlim1 Hlim2 first second.
  assert (Hsplit : Lines.region (data ++ more) lfi
                   = Lines.region data lfi ++ more).
  { unfold Lines.region. apply drop_append_l. lia. }
  assert (Hlines : rawLines (Lines.region (data ++ more) lfi)
                   = (rawLines (Lines.region data lfi) ++ rawLines more)%list)
    by (rewrite Hsplit; now apply rawLines_app).
  rewrite Hlines in Hall. apply Forall_app in Hall.
  destruct Hall as [Hall1 Hall2].
  rewrite length_append in Hsize.
  assert (H1 : first
               = mkScanResult
                   (chan ++ allMunged lfi (rawLines (Lines.region data lfi))
                      ++ [EncodedActivation lfi])%list
                   (Ret (Z.of_nat (String.length data), None))).
  { apply scan_through_file; auto; lia. }
  set (lfi2 := resumeAt lfi (Z.of_nat (String.length data))) in *.
  assert (Hregion2 : Lines.region (data ++ more) lfi2 = more).
  { unfold Lines.region, lfi2. cbn [resumeAt LastOffset].
    rewrite Nat2Z.id, drop_append_l by lia.
    now rewrite drop_all by lia. }
  assert (H2 : second
               = mkScanResult
                   (sent first
                      ++ allMunged lfi2 (rawLines (Lines.region (data ++ more) lfi2))
                      ++ [EncodedActivation lfi2])%list
                   (Ret (Z.of_nat (String.length (data ++ more)), None))).
  { apply scan_through_file; auto; rewrite ?Hregion2, ?length_append;
      cbn [lfi2 resumeAt LastOffset]; auto; try lia. }
  rewrite H2, H1, Hregion2. cbn [returned sent].
  repeat split; auto.
  rewrite <- !app_assoc. reflexivity.
Qed.

Lemma resumed_scan_forwards_the_new_lines_witness :
  sent (logScan sampleConfig (oneLog (firstHalf ++ secondHalf)) "U"
          (sent (logScan sampleConfig (oneLog firstHalf) "T" [] "c1"
                   tenByteCursor))
          "c1" (resumeAt tenByteCursor (Z.of_nat (String.length firstHalf))))
  = [js "{'a':1,'foo':'bar'}"; "ACT1"; js "{'a':2,'foo':'bar'}"; "ACT1"].
Proof.
  destruct (resumed_scan_forwards_the_new_lines sampleConfig
              (oneLog firstHalf) (oneLog (firstHalf ++ secondHalf))
              "T" "U" [] "c1" tenByteCursor firstHalf secondHalf)
    as (_ & _ & H & _).
  - reflexivity.
  - reflexivity.
  - split; [apply Z.leb_le | apply Z.leb_le]; vm_compute; reflexivity.
  - apply Z.ltb_lt. vm_compute. reflexivity.
  - reflexivity.
  - right. vm_compute. reflexivity.
  - vm_compute rawLines. scannable_lines.
  - apply Z.leb_le. vm_compute. reflexivity.
  - apply Z.leb_le. vm_compute. reflexivity.
  - rewrite H. vm_compute. reflexivity.
Defined.

(** ** Decimal numbers: what fmt prints, strconv parses *)

Lemma uintValue_ge (d : Decimal.uint) :
  forall n, (0 <= n)%Z -> (n <= uintValue n d)%Z.
Proof.
  induction d; intros n Hn; cbn [uintValue]; try lia;
    match goal with |- (_ <= uintValue ?m _)%Z =>
      specialize (IHd m ltac:(lia)); lia end.
Qed.

Lemma parseDigits_uint (d : Decimal.uint) :
  forall n,
    (0 <= n)%Z -> (uintValue n d <= strconv.maxUint64)%Z ->
    strconv.parseDigits n (NilEmpty.string_of_uint d) = inl (uintValue n d).
Proof.
  assert (Hcut : (strconv.maxUint64 / 10 + 1 = 1844674407370955162)%Z)
    by reflexivity.
  assert (Hmax : (strconv.maxUint64 = 18446744073709551615)%Z)
    by reflexivity.
  induction d; intros n Hn Hv; cbn [uintValue NilEmpty.string_of_uint] in *;
    [reflexivity|..];
    cbn [strconv.parseDigits];
    match goal with
    | |- context [strconv.digit ?c] =>
        change (strconv.digit c) with (Some (Z.of_nat (nat_of_ascii c - 48)))
    end;
    cbn [nat_of_ascii];
    match goal with
    | H : (uintValue ?m d <= _)%Z |- _ =>
        pose proof (uintValue_ge d m ltac:(lia)) as Hge
    end;
    rewrite Hcut;
    match goal with
    | |- context [(?a <=? n)%Z] =>
        destruct (Z.leb_spec a n) as [Hbad|_]; [lia|]
    end;
    cbv zeta;
    match goal with
    | |- context [(strconv.maxUint64 <? ?m)%Z] =>
        destruct (Z.ltb_spec strconv.maxUint64 m) as [Hbad|_];
        [rewrite Hmax in *; simpl in Hbad; lia|]
    end;
    rewrite IHd; simpl; try lia; try reflexivity; exact Hv.
Qed.

Lemma uintValue_acc (d : Decimal.uint) :
  forall acc, uintValue (Zpos acc) d = Zpos (Pos.of_uint_acc d acc).
Proof.
  induction d; intros acc; cbn [uintValue Pos.of_uint_acc];
    [reflexivity|..];
    rewrite <- IHd; f_equal; lia.
Qed.

Lemma uintValue_0 (d : Decimal.uint) :
  uintValue 0 d = Z.of_N (Pos.of_uint d).
Proof.
  induction d; cbn [uintValue Pos.of_uint]; [reflexivity|exact IHd|..];
    cbn [Z.mul Z.add]; rewrite uintValue_acc; reflexivity.
Qed.

Lemma uintValue_to_uint (p : positive) :
  uintValue 0 (Pos.to_uint p) = Zpos p.
Proof.
  now rewrite uintValue_0, DecimalPos.Unsigned.of_to.
Qed.

Lemma ParseUint_to_uint (p : positive) :
  (Zpos p <= strconv.maxUint64)%Z ->
  exists c rest,
    NilZero.string_of_uint (Pos.to_uint p) = String c rest
    /\ Ascii.eqb c "+" = false /\ Ascii.eqb c "-" = false
    /\ strconv.ParseUint (String c rest) = (Zpos p, None).
Proof.
  intros Hp.
  pose proof (parseDigits_uint (Pos.to_uint p) 0 ltac:(lia)) as H.
  rewrite uintValue_to_uint in H. specialize (H Hp).
  pose proof (DecimalPos.Unsigned.to_uint_nonnil p) as Hnn.
  destruct (Pos.to_uint p) as [|d|d|d|d|d|d|d|d|d|d]; [congruence|..];
    cbn [NilZero.string_of_uint NilEmpty.string_of_uint] in *;
    eexists; eexists; (split; [reflexivity|]);
    (split; [reflexivity|]); (split; [reflexivity|]);
    unfold strconv.ParseUint; now rewrite H.
Qed.

(** What [%d] prints of a 64-bit integer, [ParseInt] and [Atoi]
    parse back to that integer. *)
Lemma parseInt_printed (fn : string) (z : Z) :
  (- 2 ^ 63 <= z < 2 ^ 63)%Z ->
  strconv.parseInt fn (fmt.d z) = (z, None).
Proof.
  intros Hz. unfold fmt.d.
  assert (Hmax : (strconv.maxUint64 = 18446744073709551615)%Z)
    by reflexivity.
  destruct z as [|p|p]; [reflexivity| |].
  - destruct (ParseUint_to_uint p ltac:(lia)) as (c & rest & Hs & Hp & Hm & HU).
    cbn [Z.to_int NilZero.string_of_int]. rewrite Hs.
    unfold strconv.parseInt. rewrite Hp, Hm. cbn [orb negb andb].
    rewrite HU.
    destruct (Z.leb_spec (2 ^ 63) (Zpos p)) as [Hbad|_]; [lia|reflexivity].
  - destruct (ParseUint_to_uint p ltac:(lia)) as (c & rest & Hs & _ & _ & HU).
    cbn [Z.to_int NilZero.string_of_int]. rewrite Hs.
    unfold strconv.parseInt.
    change (Ascii.eqb "-" "-") with true.
    change (Ascii.eqb "-" "+") with false. cbn [orb negb andb].
    rewrite HU.
    destruct (Z.ltb_spec (2 ^ 63) (Zpos p)) as [Hbad|_]; [lia|reflexivity].
Qed.

(** ** The handler around a scan *)

Lemma successful_scan_sent (cfg : Config) (fs : os.FileSystem)
    (now : string) (chan : list string) (container : string)
    (lfi : LogForwardInfo) (r : Z) :
  returned (logScan cfg fs now chan container lfi) = Ret (r, None) ->
  exists before,
    sent (logScan cfg fs now chan container lfi)
    = (before ++ [EncodedActivation lfi])%list.
Proof.
  intros Hret.
  destruct (successful_scan cfg fs now chan container lfi r Hret)
    as ([Hoff _] & data & a & tr & rest & Hfs & Hscan & _).
  pose proof (logScan_lines cfg fs now chan container lfi data Hfs Hoff) as HL.
  rewrite Hscan in HL.
  destruct (SentinelledLogs lfi && negb (Lines.left a =? 0)%Z).
  - rewrite HL in Hret. discriminate.
  - destruct HL as (r' & HL & _). rewrite HL. now eexists.
Qed.

(** X5: whenever the handler answers a parsed request, the last
    line it has sent is the activation record, after a successful
    scan and after a failed one alike.  It answers 200 with the
    resume offset in decimal exactly when the scan returned without
    error, and 500 with the scan's error message otherwise. *)
Theorem handler_sends_activation_record_last (cfg : Config)
    (fs : os.FileSystem) (now now' : string) (chan : list string)
    (container : string) (lfi : LogForwardInfo) (resp : Response) :
  response (forwardParsed cfg fs now now' chan container lfi) = Ret resp ->
  (exists before,
      sentByHandler (forwardParsed cfg fs now now' chan container lfi)
      = (before ++ [EncodedActivation lfi])%list)
  /\ ((exists r,
          returned (logScan cfg fs now chan container lfi) = Ret (r, None)
          /\ resp = mkResponse 200 (fmt.d r))
      \/ (exists r e,
             returned (logScan cfg fs now chan container lfi)
             = Ret (r, Some e)
             /\ resp = mkResponse 500 e)).
Proof.
  unfold forwardParsed.
  destruct (returned (logScan cfg fs now chan container lfi))
    as [[r [e|]]|msg] eqn:Hret; cbn [response sentByHandler]; intros H.
  - injection H as <-. split; [now eexists|].
    right. exists r, e. split; reflexivity.
  - injection H as <-. split.
    + exact (successful_scan_sent cfg fs now chan container lfi r Hret).
    + left. exists r. split; reflexivity.
  - discriminate.
Qed.

Lemma handler_sends_activation_record_last_witness :
  (exists before,
      sentByHandler (forwardParsed sampleConfig (oneLog oneSentinelFile)
                       "T" "U" [] "c1" scenarioCursor)
      = (before ++ [EncodedActivation scenarioCursor])%list)
  /\ ((exists r,
          returned (logScan sampleConfig (oneLog oneSentinelFile) "T" []
                      "c1" scenarioCursor) = Ret (r, None)
          /\ mkResponse 500 "Failed to find expected sentinels in log file"
             = mkResponse 200 (fmt.d r))
      \/ (exists r e,
             returned (logScan sampleConfig (oneLog oneSentinelFile) "T" []
                         "c1" scenarioCursor) = Ret (r, Some e)
             /\ mkResponse 500 "Failed to find expected sentinels in log file"
                = mkResponse 500 e)).
Proof.
  apply (handler_sends_activation_record_last sampleConfig
           (oneLog oneSentinelFile) "T" "U" [] "c1" scenarioCursor).
  vm_compute. reflexivity.
Defined.

(** X6: the offset of a 200 response can be read back.  For a log
    file and a cursor offset that fit 64 bits, the body of the
    handler's 200 response is a decimal that [strconv.ParseInt]
    parses to the offset the scan returned, which is not below the
    cursor's [LastOffset]. *)
Theorem resume_offset_reads_back (cfg : Config) (fs : os.FileSystem)
    (now now' : string) (chan : list string) (container : string)
    (lfi : LogForwardInfo) (data : string) (r : Z) :
  fs (containerLog cfg container) = os.Opened data ->
  (Z.of_nat (String.length data) < 2 ^ 63)%Z ->
  (LastOffset lfi < 2 ^ 63)%Z ->
  returned (logScan cfg fs now chan container lfi) = Ret (r, None) ->
  exists body,
    response (forwardParsed cfg fs now now' chan container lfi)
    = Ret (mkResponse 200 body)
    /\ strconv.ParseInt body = (r, None)
    /\ (LastOffset lfi <= r)%Z.
Proof.
  intros Hfs Hsize Hlast Hret.
  destruct (successful_scan cfg fs now chan container lfi r Hret)
    as ([Hoff Hr] & data' & a & tr & rest & Hfs' & _ & Hbounds & _).
  rewrite Hfs in Hfs'. injection Hfs' as <-.
  exists (fmt.d r). unfold forwardParsed. rewrite Hret.
  split; [reflexivity|]. split; [|exact Hr].
  apply parseInt_printed. lia.
Qed.

Lemma resume_offset_reads_back_witness :
  exists body,
    response (forwardParsed sampleConfig (oneLog scenarioFile) "T" "U" []
                "c1" scenarioCursor)
    = Ret (mkResponse 200 body)
    /\ strconv.ParseInt body = (92%Z, None)
    /\ (LastOffset scenarioCursor <= 92)%Z.
Proof.
  apply (resume_offset_reads_back sampleConfig (oneLog scenarioFile) "T" "U"
           [] "c1" scenarioCursor scenarioFile 92).
  - reflexivity.
  - apply Z.ltb_lt. vm_compute. reflexivity.
  - apply Z.ltb_lt. vm_compute. reflexivity.
  - vm_compute. reflexivity.
Defined.

(** ** The configuration from the environment *)

(** X7: with none of the six variables of the agent set, whatever
    else the environment holds, the configuration is the defaults:
    no timing, the Docker socket /var/run/docker.sock, port 3233,
    /containers, /action-logs, and a sink threshold of 100 MiB. *)
Theorem unset_variables_give_defaults (unicodeToLower : string -> string)
    (env : Env) :
  env "INVOKER_AGENT_TIME_TRACE" = None ->
  env "INVOKER_AGENT_PORT" = None ->
  env "INVOKER_AGENT_LOG_SINK_SIZE" = None ->
  env "INVOKER_AGENT_DOCKER_SOCK" = None ->
  env "INVOKER_AGENT_CONTAINER_DIR" = None ->
  env "INVOKER_AGENT_OUTPUT_LOG_DIR" = None ->
  NewConfigFromEnv unicodeToLower env
  = Configured
      (mkProcessConfig false "/var/run/docker.sock" 3233
         (mkConfig "/containers" "/action-logs" 104857600)).
Proof.
  intros Ht Hp Hs Hd Hc Ho.
  unfold NewConfigFromEnv, getTimeOpsFromEnv, getPortFromEnv,
    getLogSinkSizeFromEnv, getEnvWithFallback.
  rewrite Ht, Hp, Hs, Hd, Hc, Ho. reflexivity.
Qed.

Lemma unset_variables_give_defaults_witness :
  NewConfigFromEnv (fun s => s) emptyEnv
  = Configured
      (mkProcessConfig false "/var/run/docker.sock" 3233
         (mkConfig "/containers" "/action-logs" 104857600)).
Proof.
  apply (unset_variables_give_defaults (fun s => s) emptyEnv); reflexivity.
Defined.

(** X8: the port and the sink threshold are read back from their
    decimal form.  With the two variables set to the decimals of any
    two 64-bit numbers, and a time-trace setting that is accepted, the
    configuration holds exactly those numbers: neither is checked
    against a range, so a port above 65535 or a negative threshold
    is taken as it is. *)
Theorem decimal_settings_are_read_back (unicodeToLower : string -> string)
    (env : Env) (timeOps : bool) (port size : Z) :
  (- 2 ^ 63 <= port < 2 ^ 63)%Z ->
  (- 2 ^ 63 <= size < 2 ^ 63)%Z ->
  getTimeOpsFromEnv unicodeToLower env = Configured timeOps ->
  env "INVOKER_AGENT_PORT" = Some (fmt.d port) ->
  env "INVOKER_AGENT_LOG_SINK_SIZE" = Some (fmt.d size) ->
  exists cfg,
    NewConfigFromEnv unicodeToLower env = Configured cfg
    /\ TimeOps cfg = timeOps
    /\ InvokerAgentPort cfg = port
    /\ LogSinkSize (forwarding cfg) = size.
Proof.
  intros Hport Hsize Ht Hp Hs.
  unfold NewConfigFromEnv, getPortFromEnv, getLogSinkSizeFromEnv.
  rewrite Ht, Hp, Hs.
  unfold strconv.Atoi, strconv.ParseInt.
  rewrite (parseInt_printed "Atoi" port Hport).
  rewrite (parseInt_printed "ParseInt" size Hsize).
  eexists. split; [reflexivity|]. repeat split.
Qed.

Lemma decimal_settings_are_read_back_witness :
  exists cfg,
    NewConfigFromEnv (fun s => s) portEnv = Configured cfg
    /\ TimeOps cfg = false
    /\ InvokerAgentPort cfg = 70000%Z
    /\ LogSinkSize (forwarding cfg) = (-5)%Z.
Proof.
  apply (decimal_settings_are_read_back (fun s => s) portEnv false 70000 (-5)).
  - lia.
  - lia.
  - reflexivity.
  - reflexivity.
  - reflexivity.
Defined.

(** X9: a variable that is set but empty is not an unset one.  An
    empty time-trace setting makes the start panic with the error
    about true or false; after an accepted time trace an empty port
    makes it panic with the syntax error of Atoi, and after an
    accepted port an empty sink size with the syntax error of
    ParseInt; an empty socket or directory setting is taken as the
    empty path, not replaced by the default. *)
Theorem empty_settings_are_not_defaults (unicodeToLower : string -> string)
    (env : Env) :
  (env "INVOKER_AGENT_TIME_TRACE" = Some EmptyString ->
   NewConfigFromEnv unicodeToLower env
   = Died (ErrorValue
             "invalid INVOKER_AGENT_TIME_TRACE variable, should be one of true or false"))
  /\ (forall timeOps,
         getTimeOpsFromEnv unicodeToLower env = Configured timeOps ->
         env "INVOKER_AGENT_PORT" = Some EmptyString ->
         NewConfigFromEnv unicodeToLower env
         = Died (NumErrorValue
                   (strconv.mkNumError "Atoi" EmptyString strconv.ErrSyntax)))
  /\ (forall timeOps port,
         getTimeOpsFromEnv unicodeToLower env = Configured timeOps ->
         getPortFromEnv env = Configured port ->
         env "INVOKER_AGENT_LOG_SINK_SIZE" = Some EmptyString ->
         NewConfigFromEnv unicodeToLower env
         = Died (NumErrorValue
                   (strconv.mkNumError "ParseInt" EmptyString
                      strconv.ErrSyntax)))
  /\ (forall cfg,
         NewConfigFromEnv unicodeToLower env = Configured cfg ->
         (env "INVOKER_AGENT_DOCKER_SOCK" = Some EmptyString ->
          DockerSock cfg = EmptyString)
         /\ (env "INVOKER_AGENT_CONTAINER_DIR" = Some EmptyString ->
             ContainerDir (forwarding cfg) = EmptyString)
         /\ (env "INVOKER_AGENT_OUTPUT_LOG_DIR" = Some EmptyString ->
             OutputLogDir (forwarding cfg) = EmptyString)).
Proof.
  unfold NewConfigFromEnv. split; [|split; [|split]].
  - intros H. unfold getTimeOpsFromEnv. rewrite H. reflexivity.
  - intros t Ht H. rewrite Ht. unfold getPortFromEnv. rewrite H. reflexivity.
  - intros t p Ht Hp H. rewrite Ht, Hp. unfold getLogSinkSizeFromEnv.
    rewrite H. reflexivity.
  - intros cfg.
    destruct (getTimeOpsFromEnv unicodeToLower env); [|discriminate].
    destruct (getPortFromEnv env); [|discriminate].
    destruct (getLogSinkSizeFromEnv env); [|discriminate].
    intros E. injection E as <-. cbn. unfold getEnvWithFallback.
    split; [|split]; intros H; now rewrite H.
Qed.

Lemma empty_settings_are_not_defaults_witness :
  NewConfigFromEnv (fun s => s) blankEnv
  = Died (ErrorValue
            "invalid INVOKER_AGENT_TIME_TRACE variable, should be one of true or false").
Proof.
  apply (proj1 (empty_settings_are_not_defaults (fun s => s) blankEnv)).
  reflexivity.
Defined.

(** ** Suspend and resume *)

Lemma dockerRespond_status (doing container : string) (r : postResult) :
  (statusCode (dockerRespond doing container r) = 204%Z
   /\ exists code,
        r = PostAnswered code /\ (code = 409 \/ 200 <= code <= 299)%Z)
  \/ (statusCode (dockerRespond doing container r) = 500%Z
      /\ forall code,
           r = PostAnswered code -> (code <> 409 /\ (code < 200 \/ 299 < code))%Z).
Proof.
  destruct r as [e|code]; cbn [dockerRespond].
  - right. split; [reflexivity|]. intros code H. discriminate.
  - destruct (code =? 409)%Z eqn:E409.
    + left. split; [reflexivity|]. exists code. split; [reflexivity|].
      left. now apply Z.eqb_eq.
    + apply Z.eqb_neq in E409.
      destruct ((code <? 200)%Z || (299 <? code)%Z) eqn:Eout.
      * right. split; [reflexivity|]. intros code' H. injection H as <-.
        split; [exact E409|].
        apply orb_true_iff in Eout. destruct Eout as [H|H];
          apply Z.ltb_lt in H; lia.
      * left. split; [reflexivity|]. exists code. split; [reflexivity|].
        apply orb_false_iff in Eout. destruct Eout as [H1 H2].
        apply Z.ltb_ge in H1, H2. lia.
Qed.

(** X10: the status codes of /suspend and /resume.  Both backends
    answer 204 or 500 and nothing else.  With Docker, /resume is 204
    exactly when the post to the container's unpause endpoint was
    answered with 409 or a code from 200 to 299, and /suspend
    likewise for the pause endpoint; a 409 on a pause is reported,
    like one on an unpause, as the container being already unpaused.
    With runc, an operation is 204 exactly when docker-runc, run
    with resume or pause and the container, returned no error. *)
Theorem suspend_resume_status (container : string) (post : DockerBackend)
    (run : RuncBackend) :
  let endpoint op := "http://localhost/containers/" ++ container ++ op in
  let accepted r :=
    exists code,
      r = PostAnswered code /\ (code = 409 \/ 200 <= code <= 299)%Z in
  (statusCode (Resume container post) = 204%Z
   <-> accepted (post (endpoint "/unpause")))
  /\ (statusCode (Suspend container post) = 204%Z
      <-> accepted (post (endpoint "/pause")))
  /\ (statusCode (Resume container post) <> 204%Z
      -> statusCode (Resume container post) = 500%Z)
  /\ (statusCode (Suspend container post) <> 204%Z
      -> statusCode (Suspend container post) = 500%Z)
  /\ (post (endpoint "/pause") = PostAnswered 409
      -> Suspend container post
         = mkResponse 204 (container ++ " is already unpaused. " ++ nl))
  /\ (statusCode (Resume container run) = 204%Z
      <-> run ["resume"; container] = None)
  /\ (statusCode (Suspend container run) = 204%Z
      <-> run ["pause"; container] = None)
  /\ (statusCode (Resume container run) <> 204%Z
      -> statusCode (Resume container run) = 500%Z)
  /\ (statusCode (Suspend container run) <> 204%Z
      -> statusCode (Suspend container run) = 500%Z).
Proof.
  intros endpoint accepted. unfold accepted, endpoint.
  cbn [Resume Suspend DockerSuspendResumeOps RuncSuspendResumeOps].
  pose proof (dockerRespond_status "Unpausing" container
                (post ("http://localhost/containers/" ++ container
                         ++ "/unpause"))) as HR.
  pose proof (dockerRespond_status "Pausing" container
                (post ("http://localhost/containers/" ++ container
                         ++ "/pause"))) as HS.
  repeat match goal with |- _ /\ _ => split end.
  - destruct HR as [[H1 H2]|[H1 H2]]; [tauto|].
    split; [intros H; rewrite H in H1; discriminate|].
    intros (code & Hc & Hr). specialize (H2 code Hc). lia.
  - destruct HS as [[H1 H2]|[H1 H2]]; [tauto|].
    split; [intros H; rewrite H in H1; discriminate|].
    intros (code & Hc & Hr). specialize (H2 code Hc). lia.
  - destruct HR as [[H1 _]|[H1 _]]; [intros H; contradiction|intros _; exact H1].
  - destruct HS as [[H1 _]|[H1 _]]; [intros H; contradiction|intros _; exact H1].
  - intros H. rewrite H. reflexivity.
  - destruct (run ["resume"; container]); cbn; split; congruence.
  - destruct (run ["pause"; container]); cbn; split; congruence.
  - destruct (run ["resume"; container]); cbn; congruence.
  - destruct (run ["pause"; container]); cbn; congruence.
Qed.

(** ** The sink writer over many lines *)

Lemma length_written_cons (l : string) (ls : list string) :
  Z.of_nat (String.length (written (l :: ls)))
  = (Z.of_nat (String.length l) + 1
     + Z.of_nat (String.length (written ls)))%Z.
Proof.
  cbn [written]. rewrite !length_append. cbn [nl String.length]. lia.
Qed.

Lemma logWriter_pass_consistent (cfg : Config) (st : sinkState)
    (i : sinkInput) :
  sinkConsistent cfg st ->
  createError i = None ->
  writeError i = None ->
  (Z.of_nat (String.length (line i)) + 1 + Z.max 0 (LogSinkSize cfg)
   < 2 ^ 63)%Z ->
  exists st',
    logWriter_pass cfg st i = Ret st' /\ sinkConsistent cfg st'.
Proof.
  intros Hc Hce Hwe Hb. unfold logWriter_pass, sinkConsistent in *.
  rewrite Hce, Hwe.
  destruct (sinkFile st) as [f|].
  - destruct Hc as (c & Hd & Hn & Hle). rewrite Hd.
    rewrite wrap64_small by lia.
    destruct (LogSinkSize cfg <? _)%Z eqn:E; eexists;
      (split; [reflexivity|]); cbn [sinkFile sinkFileBytes disk].
    + exact I.
    + exists (c ++ line i ++ nl). rewrite writeFile_same.
      split; [reflexivity|]. apply Z.ltb_ge in E. split; [|exact E].
      rewrite Hn, !length_append. cbn [nl String.length]. lia.
  - rewrite writeFile_same. rewrite wrap64_small by lia.
    destruct (LogSinkSize cfg <? _)%Z eqn:E; eexists;
      (split; [reflexivity|]); cbn [sinkFile sinkFileBytes disk].
    + exact I.
    + exists (EmptyString ++ line i ++ nl). rewrite writeFile_same.
      split; [reflexivity|]. apply Z.ltb_ge in E. split; [|exact E].
      cbn [append]. rewrite !length_append. cbn [nl String.length]. lia.
Qed.

(** X11: the counter of the writer is the size of its open file.
    From a state where the counter equals the length of the open
    file and is within the threshold, any run of lines written
    without I/O errors, each short enough that the count stays
    within 64 bits, ends without a panic in such a state again: the
    file that stays open after a line never holds more than
    [LogSinkSize] bytes. *)
Theorem sink_counter_is_file_size (cfg : Config) (inputs : list sinkInput) :
  forall st : sinkState,
    sinkConsistent cfg st ->
    Forall (fun i =>
              createError i = None /\ writeError i = None
              /\ (Z.of_nat (String.length (line i)) + 1
                  + Z.max 0 (LogSinkSize cfg) < 2 ^ 63)%Z) inputs ->
    exists st',
      logWriter cfg st inputs = Ret st' /\ sinkConsistent cfg st'.
Proof.
  induction inputs as [|i inputs IH]; intros st Hc Hall.
  - exists st. split; [reflexivity|exact Hc].
  - inversion Hall as [|? ? (Hce & Hwe & Hb) Hrest]; subst.
    destruct (logWriter_pass_consistent cfg st i Hc Hce Hwe Hb)
      as (st1 & Hpass & Hc1).
    cbn [logWriter]. rewrite Hpass. exact (IH st1 Hc1 Hrest).
Qed.

Lemma sink_counter_is_file_size_witness :
  exists st',
    logWriter roomyConfig sinkStart [firstInput; secondInput] = Ret st'
    /\ sinkConsistent roomyConfig st'.
Proof.
  apply (sink_counter_is_file_size roomyConfig [firstInput; secondInput]
           sinkStart).
  - exact I.
  - repeat constructor; vm_compute; reflexivity.
Defined.

Lemma logWriter_open_run (cfg : Config) (f : string)
    (inputs : list sinkInput) :
  forall (st : sinkState) (c : string),
    sinkFile st = Some f ->
    disk st f = Some c ->
    sinkFileBytes st = Z.of_nat (String.length c) ->
    Forall (fun i => createError i = None /\ writeError i = None) inputs ->
    (LogSinkSize cfg < 2 ^ 63)%Z ->
    (Z.of_nat (String.length c)
     + Z.of_nat (String.length (written (map line inputs)))
     <= LogSinkSize cfg)%Z ->
    exists st',
      logWriter cfg st inputs = Ret st'
      /\ sinkFile st' = Some f
      /\ disk st' f = Some (c ++ written (map line inputs))
      /\ (forall other, other <> f -> disk st' other = disk st other).
Proof.
  induction inputs as [|i inputs IH]; intros st c Hf Hd Hn Hall HT Hroom.
  - exists st. cbn [logWriter map written].
    split; [reflexivity|]. split; [exact Hf|]. split; [|reflexivity].
    rewrite Hd. now rewrite append_nil_r.
  - inversion Hall as [|? ? (Hce & Hwe) Hrest]; subst.
    cbn [map] in Hroom. rewrite length_written_cons in Hroom.
    pose proof (Nat2Z.is_nonneg (String.length (written (map line inputs))))
      as Hpos.
    cbn [logWriter]. unfold logWriter_pass.
    rewrite Hf, Hwe, Hd, Hn.
    rewrite wrap64_small by lia.
    replace (LogSinkSize cfg <? _)%Z with false
      by (symmetry; apply Z.ltb_ge; lia).
    destruct (IH (mkSinkState (Some f)
                    (Z.of_nat (String.length c)
                     + Z.of_nat (String.length (line i) + 1))
                    (writeFile (disk st) f (c ++ line i ++ nl)))
                 (c ++ line i ++ nl))
      as (st' & Hrun & Hf' & Hd' & Hother).
    + reflexivity.
    + cbn [disk]. apply writeFile_same.
    + cbn [sinkFileBytes]. rewrite !length_append. cbn [nl String.length]. lia.
    + exact Hrest.
    + exact HT.
    + rewrite !length_append. cbn [nl String.length]. lia.
    + exists st'. split; [exact Hrun|]. split; [exact Hf'|]. split.
      * rewrite Hd'. cbn [map written]. now rewrite !append_assoc.
      * intros other Ho. rewrite (Hother other Ho). cbn [disk].
        now apply writeFile_other.
Qed.

(** X12: below the threshold the writer keeps one file and the
    order of the lines.  When the bytes of the file the writer starts
    from and of all the lines it receives, a newline each, stay
    within [LogSinkSize], a run without I/O errors panics nowhere
    and rotates nowhere: the file the first line went to is still
    open, it holds what it held before followed by every line in the
    order received, each with its newline, and no other file of the
    directory has changed. *)
Theorem sink_file_holds_lines_in_order (cfg : Config) (st : sinkState)
    (i : sinkInput) (inputs : list sinkInput) :
  sinkConsistent cfg st ->
  Forall (fun i => createError i = None /\ writeError i = None)
    (i :: inputs) ->
  (LogSinkSize cfg < 2 ^ 63)%Z ->
  (sinkBytesBefore st
   + Z.of_nat (String.length (written (map line (i :: inputs))))
   <= LogSinkSize cfg)%Z ->
  exists st',
    logWriter cfg st (i :: inputs) = Ret st'
    /\ sinkFile st' = Some (sinkTarget cfg st i)
    /\ disk st' (sinkTarget cfg st i)
       = Some (sinkContentsBefore st ++ written (map line (i :: inputs)))
    /\ (forall other,
           other <> sinkTarget cfg st i -> disk st' other = disk st other).
Proof.
  intros Hc Hall HT Hroom.
  unfold sinkConsistent, sinkBytesBefore, sinkTarget, sinkContentsBefore in *.
  destruct (sinkFile st) as [f|] eqn:Hf.
  - destruct Hc as (c & Hd & Hn & _). rewrite Hd.
    apply (logWriter_open_run cfg f (i :: inputs) st c Hf Hd Hn Hall HT).
    rewrite <- Hn. exact Hroom.
  - inversion Hall as [|? ? (Hce & Hwe) Hrest]; subst.
    cbn [map] in Hroom. rewrite length_written_cons in Hroom.
    pose proof (Nat2Z.is_nonneg (String.length (written (map line inputs))))
      as Hpos.
    cbn [logWriter]. unfold logWriter_pass.
    rewrite Hf, Hce, Hwe, writeFile_same.
    rewrite wrap64_small by lia.
    replace (LogSinkSize cfg <? _)%Z with false
      by (symmetry; apply Z.ltb_ge; lia).
    set (fname := sinkFileName cfg (unixNano i)).
    destruct (logWriter_open_run cfg fname inputs
                (mkSinkState (Some fname)
                   (0 + Z.of_nat (String.length (line i) + 1))
                   (writeFile (writeFile (disk st) fname EmptyString) fname
                      (EmptyString ++ line i ++ nl)))
                (line i ++ nl))
      as (st' & Hrun & Hf' & Hd' & Hother).
    + reflexivity.
    + cbn [disk]. apply writeFile_same.
    + cbn [sinkFileBytes]. rewrite !length_append. cbn [nl String.length]. lia.
    + exact Hrest.
    + exact HT.
    + rewrite !length_append. cbn [nl String.length]. lia.
    + exists st'. split; [exact Hrun|]. split; [exact Hf'|]. split.
      * rewrite Hd'. cbn [map written append]. now rewrite !append_assoc.
      * intros other Ho. rewrite (Hother other Ho). cbn [disk].
        rewrite !writeFile_other by exact Ho. reflexivity.
Qed.

Lemma sink_file_holds_lines_in_order_witness :
  exists st',
    logWriter roomyConfig sinkStart [firstInput; secondInput] = Ret st'
    /\ sinkFile st' = Some (sinkTarget roomyConfig sinkStart firstInput)
    /\ disk st' (sinkTarget roomyConfig sinkStart firstInput)
       = Some (sinkContentsBefore sinkStart
               ++ written (map line [firstInput; secondInput]))
    /\ (forall other,
           other <> sinkTarget roomyConfig sinkStart firstInput ->
           disk st' other = disk sinkStart other).
Proof.
  apply (sink_file_holds_lines_in_order roomyConfig sinkStart firstInput
           [secondInput]).
  - exact I.
  - repeat constructor.
  - reflexivity.
  - apply Z.leb_le. vm_compute. reflexivity.
Defined.

(** ** A line too long for the scanner *)

(** X13: a line of [bufio.MaxScanTokenSize] bytes or more ends the
    scan without a word.  When the lines before it are ordinary,
    hold fewer than two sentinels and stay within the size limit,
    they are forwarded, and neither the long line nor any line after
    it is: in sentinel mode the scan fails for the missing sentinels,
    whatever follows the long line; without sentinels it succeeds as
    if the file had ended, with an offset at or after the start of
    the long line. *)
Theorem overlong_line_ends_the_scan (cfg : Config) (fs : os.FileSystem)
    (now : string) (chan : list string) (container : string)
    (lfi : LogForwardInfo) (data : string)
    (pre : list string) (raw : string) (post : list string) :
  fs (containerLog cfg container) = os.Opened data ->
  (0 <= LastOffset lfi)%Z ->
  (Z.of_nat (String.length data) < 2 ^ 63)%Z ->
  rawLines (Lines.region data lfi) = (pre ++ raw :: post)%list ->
  Forall scannable pre ->
  sentinelCount lfi pre < 2 ->
  (contentBytes lfi pre <= SizeLimit lfi)%Z ->
  bufio.MaxScanTokenSize <= String.length (chomp raw) ->
  if SentinelledLogs lfi then
    logScan cfg fs now chan container lfi
    = mkScanResult (chan ++ mungedLines lfi pre)%list
        (Ret (0%Z, Some "Failed to find expected sentinels in log file"))
  else
    exists r,
      logScan cfg fs now chan container lfi
      = mkScanResult
          (chan ++ mungedLines lfi pre ++ [EncodedActivation lfi])%list
          (Ret (r, None))
      /\ (LastOffset lfi + Z.of_nat (String.length (concatLines pre))
          <= r <= Z.of_nat (String.length data))%Z.
Proof.
  intros Hfs Hoff Hsize Hraw Hpre Hcount Hlim Hlong.
  pose proof (contentBytes_prefix lfi data pre _ Hraw) as Hmax.
  pose proof (logScan_lines cfg fs now chan container lfi data Hfs Hoff) as HL.
  rewrite (Lines_scan_through now lfi chan data pre (raw :: post)) in HL;
    auto; try lia.
  unfold after in HL.
  cbn [Lines.forward Lines.left Lines.sentSoFar Lines.bytes] in HL.
  replace (0 <? 2 - Z.of_nat (sentinelCount lfi pre))%Z with true in HL
    by (symmetry; apply Z.ltb_lt; lia).
  cbn [negb] in HL.
  assert (Hraw0 : raw <> EmptyString).
  { intros ->. cbn [chomp IndexByte String.length] in Hlong.
    pose proof MaxScanTokenSize_large. lia. }
  apply Nat.leb_le in Hlong. rewrite Hlong in HL.
  cbn [Lines.left Lines.sentSoFar] in HL.
  replace (2 - Z.of_nat (sentinelCount lfi pre) =? 0)%Z with false in HL
    by (symmetry; apply Z.eqb_neq; lia).
  destruct (SentinelledLogs lfi); cbn [negb andb] in HL; [exact HL|].
  destruct HL as (r & HL & Hbounds & Hline & _).
  exists r. rewrite HL, <- app_assoc. split; [reflexivity|].
  unfold Lines.resumeOffset, Lines.consumedEnd in Hline.
  assert (Hlen : String.length (Lines.region data lfi)
                 = String.length (concatLines pre)
                   + String.length (concatLines (raw :: post))).
  { rewrite <- (concatLines_rawLines (Lines.region data lfi)), Hraw.
    now rewrite length_concatLines_app. }
  assert (Hsome : 0 < String.length (Lines.region data lfi)).
  { rewrite Hlen. cbn [concatLines]. rewrite length_append.
    destruct raw; [exfalso; exact (Hraw0 eq_refl) | simpl; lia]. }
  unfold Lines.region in Hsome, Hlen. rewrite length_drop in Hsome.
  unfold Lines.region in Hline. lia.
Qed.

Lemma oneLog_c1 (data : string) :
  oneLog data (containerLog sampleConfig "c1") = os.Opened data.
Proof. reflexivity. Qed.

Lemma replicate_line (n : nat) :
  rawLines (replicate n "x" ++ nl) = [replicate n "x" ++ nl]
  /\ last_byte (replicate n "x" ++ nl) = Some newline
  /\ chomp (replicate n "x" ++ nl) = replicate n "x"
  /\ String.length (replicate n "x") = n.
Proof.
  induction n as [|n (IH1 & IH2 & IH3 & IH4)].
  - repeat split.
  - change (replicate (S n) "x" ++ nl)
      with (String "x" (replicate n "x" ++ nl)).
    change (replicate (S n) "x") with (String "x" (replicate n "x")).
    split; [|split; [|split]].
    + cbn [rawLines]. change (Ascii.eqb "x" newline) with false.
      cbv iota. now rewrite IH1.
    + cbn [last_byte]. rewrite IH2.
      destruct (replicate n "x" ++ nl); [discriminate|reflexivity].
    + unfold chomp in *. cbn [IndexByte].
      change (Ascii.eqb "x" newline) with false. cbv iota.
      destruct (IndexByte newline (replicate n "x" ++ nl)) as [i|];
        cbn [option_map take]; now rewrite IH3.
    + cbn [String.length]. now rewrite IH4.
Qed.

Lemma overlong_line_ends_the_scan_witness :
  if SentinelledLogs scenarioCursor then
    logScan sampleConfig (oneLog overlongFile) "T" [] "c1" scenarioCursor
    = mkScanResult ([] ++ mungedLines scenarioCursor [firstHalf])%list
        (Ret (0%Z, Some "Failed to find expected sentinels in log file"))
  else
    exists r,
      logScan sampleConfig (oneLog overlongFile) "T" [] "c1" scenarioCursor
      = mkScanResult
          ([] ++ mungedLines scenarioCursor [firstHalf]
              ++ [EncodedActivation scenarioCursor])%list
          (Ret (r, None))
      /\ (LastOffset scenarioCursor
          + Z.of_nat (String.length (concatLines [firstHalf]))
          <= r <= Z.of_nat (String.length overlongFile))%Z.
Proof.
  destruct (replicate_line bufio.MaxScanTokenSize) as (Hl & Hb & Hc & Hn).
  apply (overlong_line_ends_the_scan sampleConfig (oneLog overlongFile) "T"
           [] "c1" scenarioCursor overlongFile [firstHalf] overlongLine
           [secondHalf]).
  - apply oneLog_c1.
  - simpl; lia.
  - assert (Hs : Z.of_nat bufio.MaxScanTokenSize = 65536%Z)
      by (vm_compute; reflexivity).
    unfold overlongFile, overlongLine.
    rewrite !length_append, Hn, !Nat2Z.inj_add, Hs. vm_compute. reflexivity.
  - change (Lines.region overlongFile scenarioCursor) with overlongFile.
    unfold overlongFile, overlongLine.
    rewrite rawLines_app by (right; reflexivity).
    rewrite rawLines_app by (right; exact Hb).
    rewrite Hl. reflexivity.
  - scannable_lines.
  - vm_compute. lia.
  - apply Z.leb_le. vm_compute. reflexivity.
  - unfold overlongLine. rewrite Hc, Hn. apply Nat.le_refl.
Defined.

(** ** The numeric settings that are accepted *)

Lemma parseDigits_allDigits (s : string) :
  forall n m,
    strconv.parseDigits n s = inl m -> (0 <= n)%Z ->
    allDigits s = true /\ (0 <= m)%Z.
Proof.
  induction s as [|c s IH]; intros n m H Hn;
    cbn [strconv.parseDigits allDigits] in *.
  - injection H as <-. split; [reflexivity|exact Hn].
  - destruct (strconv.digit c) as [d|] eqn:Hd; [|discriminate].
    destruct (strconv.maxUint64 / 10 + 1 <=? n)%Z; [discriminate|].
    cbv zeta in H.
    destruct (strconv.maxUint64 <? n * 10 + d)%Z; [discriminate|].
    apply (IH _ _ H).
    unfold strconv.digit in Hd.
    destruct ((48 <=? nat_of_ascii c)%nat && (nat_of_ascii c <=? 57)%nat);
      [|discriminate].
    injection Hd as <-. lia.
Qed.

Lemma parseInt_accepts (fn v : string) (z : Z) :
  strconv.parseInt fn v = (z, None) ->
  isDecimal v = true /\ (- 2 ^ 63 <= z < 2 ^ 63)%Z.
Proof.
  unfold strconv.parseInt, isDecimal.
  destruct v as [|c rest]; [discriminate|].
  cbv zeta.
  set (neg := Ascii.eqb c "-").
  set (s := if Ascii.eqb c "+" || neg then rest else String c rest).
  unfold strconv.ParseUint.
  destruct s as [|a s0] eqn:Hs; [discriminate|].
  destruct (strconv.parseDigits 0 (String a s0)) as [n|[|]] eqn:Hp.
  - destruct (parseDigits_allDigits _ _ _ Hp) as [Hall Hpos]; [lia|].
    rewrite Hall.
    destruct (negb neg && (2 ^ 63 <=? n)%Z) eqn:E1; [discriminate|].
    destruct (neg && (2 ^ 63 <? n)%Z) eqn:E2; [discriminate|].
    intros H. injection H as <-. split; [reflexivity|].
    destruct neg; cbn [negb andb] in E1, E2.
    + apply Z.ltb_ge in E2. lia.
    + apply Z.leb_gt in E1. lia.
  - discriminate.
  - destruct neg; cbn [negb andb];
      [change (2 ^ 63 <? strconv.maxUint64)%Z with true
      |change (2 ^ 63 <=? strconv.maxUint64)%Z with true];
      cbv iota; discriminate.
Qed.

(** X14: what the numeric settings accept.  In every configuration
    the agent starts with, a port or a sink threshold taken from the
    environment was written as an optional sign and then one decimal
    digit or more, with nothing before or after, and both numbers
    are within 64 bits. *)
Theorem accepted_numbers_are_decimal (unicodeToLower : string -> string)
    (env : Env) (cfg : ProcessConfig) :
  NewConfigFromEnv unicodeToLower env = Configured cfg ->
  (forall v, env "INVOKER_AGENT_PORT" = Some v -> isDecimal v = true)
  /\ (forall v,
         env "INVOKER_AGENT_LOG_SINK_SIZE" = Some v -> isDecimal v = true)
  /\ (- 2 ^ 63 <= InvokerAgentPort cfg < 2 ^ 63)%Z
  /\ (- 2 ^ 63 <= LogSinkSize (forwarding cfg) < 2 ^ 63)%Z.
Proof.
  unfold NewConfigFromEnv, getPortFromEnv, getLogSinkSizeFromEnv,
    strconv.Atoi, strconv.ParseInt.
  destruct (getTimeOpsFromEnv unicodeToLower env) as [t|]; [|discriminate].
  assert (Hport :
            match env "INVOKER_AGENT_PORT" with
            | Some v =>
                forall z, strconv.parseInt "Atoi" v = (z, None) ->
                          isDecimal v = true /\ (- 2 ^ 63 <= z < 2 ^ 63)%Z
            | None => True
            end)
    by (destruct (env "INVOKER_AGENT_PORT");
        [intros z; apply parseInt_accepts | exact I]).
  assert (Hsize :
            match env "INVOKER_AGENT_LOG_SINK_SIZE" with
            | Some v =>
                forall z, strconv.parseInt "ParseInt" v = (z, None) ->
                          isDecimal v = true /\ (- 2 ^ 63 <= z < 2 ^ 63)%Z
            | None => True
            end)
    by (destruct (env "INVOKER_AGENT_LOG_SINK_SIZE");
        [intros z; apply parseInt_accepts | exact I]).
  destruct (env "INVOKER_AGENT_PORT") as [vp|].
  - destruct (strconv.parseInt "Atoi" vp) as [p [e|]] eqn:Ep; [discriminate|].
    destruct (Hport p eq_refl) as [Hdp Hrp].
    destruct (env "INVOKER_AGENT_LOG_SINK_SIZE") as [vs|].
    + destruct (strconv.parseInt "ParseInt" vs) as [z [e|]] eqn:Es;
        [discriminate|].
      destruct (Hsize z eq_refl) as [Hds Hrs].
      intros H. injection H as <-.
      cbn [InvokerAgentPort forwarding LogSinkSize].
      repeat split; try lia; intros v Hv; injection Hv as <-; assumption.
    + intros H. injection H as <-.
      cbn [InvokerAgentPort forwarding LogSinkSize].
      repeat split; try lia; try discriminate;
        try (intros v Hv; injection Hv as <-; assumption);
        unfold defaultLogSinkSize; lia.
  - destruct (env "INVOKER_AGENT_LOG_SINK_SIZE") as [vs|].
    + destruct (strconv.parseInt "ParseInt" vs) as [z [e|]] eqn:Es;
        [discriminate|].
      destruct (Hsize z eq_refl) as [Hds Hrs].
      intros H. injection H as <-.
      cbn [InvokerAgentPort forwarding LogSinkSize].
      repeat split; try lia; try discriminate;
        try (intros v Hv; injection Hv as <-; assumption);
        unfold defaultInvokerAgentPort; lia.
    + intros H. injection H as <-.
      cbn [InvokerAgentPort forwarding LogSinkSize].
      repeat split; try discriminate;
        unfold defaultInvokerAgentPort, defaultLogSinkSize; lia.
Qed.

Lemma accepted_numbers_are_decimal_witness :
  (forall v, portEnv "INVOKER_AGENT_PORT" = Some v -> isDecimal v = true)
  /\ (forall v,
         portEnv "INVOKER_AGENT_LOG_SINK_SIZE" = Some v -> isDecimal v = true)
  /\ (- 2 ^ 63 <= 70000 < 2 ^ 63)%Z
  /\ (- 2 ^ 63 <= -5 < 2 ^ 63)%Z.
Proof.
  apply (accepted_numbers_are_decimal (fun s => s) portEnv
           (mkProcessConfig false "/var/run/docker.sock" 70000
              (mkConfig "/containers" "/action-logs" (-5)))).
  vm_compute. reflexivity.
Defined.
